(** * FreeRTOS TriCore port (portable/TriCore/port.c): context records,
      free-list handling, the switch engine and the tick handler.

    The development embeds the functions of [port.c] as programs of a small
    state-and-trap monad over the state of one core, and proves the
    properties of the port's specification about them. *)

From Stdlib Require Import ZArith List Lia Bool Permutation.
Import ListNotations.
Open Scope Z_scope.

(** ** Words and the constants of port.c *)

(** [~x] on a 32-bit [unsigned long]. *)
Definition not32 (x : Z) : Z := Z.lxor x 0xFFFFFFFF.

Definition word (x : Z) : Prop := 0 <= x < 2 ^ 32.

Definition NULL : Z := 0.

Definition portSYSTEM_PROGRAM_STATUS_WORD : Z := 0x000008FF.
Definition portINITIAL_PCXI_UPPER_CONTEXT_WORD : Z := 0x00300000.
Definition portINITIAL_SYSCON : Z := 0x00000000.
Definition portCSA_FCX_MASK : Z := 0x000FFFFF.
Definition portRESTORE_PSW_MASK : Z := not32 0x000000FF.
Definition portNUM_WORDS_IN_CSA : Z := 16.
Definition sizeof_unsigned_long : Z := 4.

(** [pdFALSE] of projdefs.h. *)
Definition pdFALSE : Z := 0.

(** ** What port.c takes from its headers and from the generic kernel *)

(** The macros and configuration constants of portmacro.h and
    FreeRTOSConfig.h, and the position of the interrupt-enable bit in the
    interrupt control register, which the compiler's register definitions
    give; none of them is part of port.c. *)
Class PortMacros : Type := {
  portCSA_TO_ADDRESS : Z -> Z;
  portADDRESS_TO_CSA : Z -> Z;
  portCCPN_MASK : Z;
  configMAX_SYSCALL_INTERRUPT_PRIORITY : Z;
  portSYSCALL_TASK_YIELD : Z;
  ICR_IE : nat
}.

(** The two entry points of the generic kernel (tasks.c) that port.c calls.
    The kernel's own data is abstract; [vTaskSwitchContext] yields the
    control block it makes current, [xTaskIncrementTick] its return value. *)
Class Kernel : Type := {
  kstate : Type;
  task_selection : kstate -> kstate * Z;
  tick_accounting : kstate -> kstate * Z
}.

(** What the port relies on about the identifier encoding: an identifier
    occupies the low 20 bits of a word, the conversion to an address reads
    only those, the conversion back inverts it, the null identifier is the
    null address, and records are 16 words (64 bytes) apart. *)
Record CsaLaws `{PortMacros} : Prop := {
  csa_low20 : forall c, portCSA_TO_ADDRESS (Z.land c portCSA_FCX_MASK) = portCSA_TO_ADDRESS c;
  csa_round_trip : forall c, portADDRESS_TO_CSA (portCSA_TO_ADDRESS c) = Z.land c portCSA_FCX_MASK;
  csa_null : portCSA_TO_ADDRESS 0 = NULL;
  csa_aligned : forall c, portCSA_TO_ADDRESS c mod 64 = 0
}.

(** What the port relies on about the interrupt-priority constants: the
    mask is a 32-bit word, the syscall priority lies inside it and the
    interrupt-enable bit lies outside it. *)
Record CcpnLaws `{PortMacros} : Prop := {
  ccpn_mask_word : word portCCPN_MASK;
  syscall_priority_in_mask :
    Z.land configMAX_SYSCALL_INTERRUPT_PRIORITY portCCPN_MASK = configMAX_SYSCALL_INTERRUPT_PRIORITY;
  enable_bit_outside_mask : Z.testbit portCCPN_MASK (Z.of_nat ICR_IE) = false
}.

(** ** The state of one core *)

Inductive creg : Type :=
| TRICORE_CPU_FCX
| TRICORE_CPU_PCXI
| TRICORE_CPU_ICR
| TRICORE_CPU_PSW
| TRICORE_CPU_SYSCON.

(** Ghost record of what the port does to the outside: reads and writes of
    core registers, stores to memory and calls of [memset] (each with the
    interrupt-enable bit at that moment), and calls into the generic
    kernel. The newest event is first. *)
Inductive event : Type :=
| EvMfcr (r : creg) (v : Z) (ie : bool)
| EvMtcr (r : creg) (v : Z) (ie : bool)
| EvStore (a v : Z) (ie : bool)
| EvMemset (p bytes : Z) (ie : bool)
| EvSwitchContext (ie : bool) (selected : Z)
| EvIncrementTick (icr : Z) (ret : Z).

Definition memory : Type := Z -> Z.

Record state `{Kernel} : Type := mkState {
  FCX : Z;
  PCXI : Z;
  ICR : Z;                   (* with the interrupt-enable bit ICR.IE *)
  PSW : Z;
  SYSCON : Z;
  mem : memory;              (* word at a byte address *)
  pxCurrentTCB : Z;          (* pxCurrentTCBs[ core id ] *)
  kernel : kstate;
  uxCriticalNesting : Z;
  comparator : Z;            (* STM[ core ]->CMP[ g_STMConf[ core ].comparator ] *)
  g_ticksFor1ms : Z;
  trace : list event
}.

Arguments mkState {_} _ _ _ _ _ _ _ _ _ _ _ _.

Inductive trap : Type :=
| ContextListDepletion       (* raised by the core's context unit *)
| AssertionFailed.           (* configASSERT *)

Inductive outcome `{Kernel} (A : Type) : Type :=
| Done (a : A) (s : state)
| Trapped (t : trap) (s : state)
| OutOfFuel.

Arguments Done {_ A} a s.
Arguments Trapped {_ A} t s.
Arguments OutOfFuel {_ A}.

Definition M `{Kernel} (A : Type) : Type := state -> outcome A.

Definition ret `{Kernel} {A} (a : A) : M A := fun s => Done a s.

Definition bind `{Kernel} {A B} (m : M A) (k : A -> M B) : M B :=
  fun s => match m s with
           | Done a s' => k a s'
           | Trapped t s' => Trapped t s'
           | OutOfFuel => OutOfFuel
           end.

Definition raise `{Kernel} {A} (t : trap) : M A := fun s => Trapped t s.

Notation "x <- m ;; k" := (bind m (fun x => k))
  (at level 61, m at next level, right associativity).
Notation "m ;;; k" := (bind m (fun _ => k))
  (at level 61, right associativity).

(** The core's context instructions, which port.c uses through intrinsics. *)
Class Hardware `{Kernel} : Type := {
  TriCore__svlcx : M unit;
  TriCore__rslcx : M unit
}.

Section Port.

Context {K : Kernel} {PM : PortMacros} {HW : Hardware}.

(** *** State updates *)

Definition set_FCX (v : Z) (s : state) : state :=
  mkState v (PCXI s) (ICR s) (PSW s) (SYSCON s) (mem s) (pxCurrentTCB s)
          (kernel s) (uxCriticalNesting s) (comparator s) (g_ticksFor1ms s) (trace s).
Definition set_PCXI (v : Z) (s : state) : state :=
  mkState (FCX s) v (ICR s) (PSW s) (SYSCON s) (mem s) (pxCurrentTCB s)
          (kernel s) (uxCriticalNesting s) (comparator s) (g_ticksFor1ms s) (trace s).
Definition set_ICR (v : Z) (s : state) : state :=
  mkState (FCX s) (PCXI s) v (PSW s) (SYSCON s) (mem s) (pxCurrentTCB s)
          (kernel s) (uxCriticalNesting s) (comparator s) (g_ticksFor1ms s) (trace s).
Definition set_PSW (v : Z) (s : state) : state :=
  mkState (FCX s) (PCXI s) (ICR s) v (SYSCON s) (mem s) (pxCurrentTCB s)
          (kernel s) (uxCriticalNesting s) (comparator s) (g_ticksFor1ms s) (trace s).
Definition set_SYSCON (v : Z) (s : state) : state :=
  mkState (FCX s) (PCXI s) (ICR s) (PSW s) v (mem s) (pxCurrentTCB s)
          (kernel s) (uxCriticalNesting s) (comparator s) (g_ticksFor1ms s) (trace s).
Definition set_mem (m : memory) (s : state) : state :=
  mkState (FCX s) (PCXI s) (ICR s) (PSW s) (SYSCON s) m (pxCurrentTCB s)
          (kernel s) (uxCriticalNesting s) (comparator s) (g_ticksFor1ms s) (trace s).
Definition set_current (k : kstate) (t : Z) (s : state) : state :=
  mkState (FCX s) (PCXI s) (ICR s) (PSW s) (SYSCON s) (mem s) t
          k (uxCriticalNesting s) (comparator s) (g_ticksFor1ms s) (trace s).
Definition set_kernel (k : kstate) (s : state) : state :=
  mkState (FCX s) (PCXI s) (ICR s) (PSW s) (SYSCON s) (mem s) (pxCurrentTCB s)
          k (uxCriticalNesting s) (comparator s) (g_ticksFor1ms s) (trace s).
Definition set_nesting (n : Z) (s : state) : state :=
  mkState (FCX s) (PCXI s) (ICR s) (PSW s) (SYSCON s) (mem s) (pxCurrentTCB s)
          (kernel s) n (comparator s) (g_ticksFor1ms s) (trace s).
Definition set_comparator (v : Z) (s : state) : state :=
  mkState (FCX s) (PCXI s) (ICR s) (PSW s) (SYSCON s) (mem s) (pxCurrentTCB s)
          (kernel s) (uxCriticalNesting s) v (g_ticksFor1ms s) (trace s).
Definition log (e : event) (s : state) : state :=
  mkState (FCX s) (PCXI s) (ICR s) (PSW s) (SYSCON s) (mem s) (pxCurrentTCB s)
          (kernel s) (uxCriticalNesting s) (comparator s) (g_ticksFor1ms s) (e :: trace s).
Definition logs (es : list event) (s : state) : state :=
  mkState (FCX s) (PCXI s) (ICR s) (PSW s) (SYSCON s) (mem s) (pxCurrentTCB s)
          (kernel s) (uxCriticalNesting s) (comparator s) (g_ticksFor1ms s) (es ++ trace s).

(** *** The interrupt-enable bit

    Interrupts are enabled on the core when the bit ICR.IE is set. *)

Definition ie_bit : Z := Z.of_nat ICR_IE.

Definition IE (s : state) : bool := Z.testbit (ICR s) ie_bit.

Definition set_IE (b : bool) (s : state) : state :=
  set_ICR (if b then Z.setbit (ICR s) ie_bit else Z.clearbit (ICR s) ie_bit) s.

(** *** Memory: [p[i]] for an [unsigned long *p] *)

Definition upd (m : memory) (a v : Z) : memory :=
  fun x => if x =? a then v else m x.

Definition at_index (p i : Z) : Z := p + sizeof_unsigned_long * i.

Definition load (p i : Z) : M Z := fun s => Done (mem s (at_index p i)) s.

Definition store (p i v : Z) : M unit :=
  fun s => Done tt (log (EvStore (at_index p i) v (IE s))
                        (set_mem (upd (mem s) (at_index p i) v) s)).

(** [memset( p, 0, n * sizeof( unsigned long ) )], word by word. *)
Fixpoint zero_words (m : memory) (p : Z) (n : nat) : memory :=
  match n with
  | O => m
  | S n' => upd (zero_words m p n') (at_index p (Z.of_nat n')) 0
  end.

Definition memset0 (p : Z) (bytes : Z) : M unit :=
  fun s => Done tt (log (EvMemset p bytes (IE s))
                        (set_mem (zero_words (mem s) p (Z.to_nat (bytes / sizeof_unsigned_long))) s)).

(** *** The intrinsics

    Modelled from the spec: the compiler intrinsics are not part of port.c.
    [TriCore__disable] and [TriCore__enable] are "interrupts disabled on this
    core" and its end: the instructions clear and set the bit ICR.IE of the
    interrupt control register. [TriCore__mfcr] and [TriCore__mtcr] read
    and write a core register, the barriers have no effect on the state of
    one core. *)

Definition TriCore__disable : M unit := fun s => Done tt (set_IE false s).
Definition TriCore__enable : M unit := fun s => Done tt (set_IE true s).
Definition TriCore__dsync : M unit := ret tt.
Definition TriCore__isync : M unit := ret tt.
Definition TriCore__nop : M unit := ret tt.

Definition read_creg (r : creg) (s : state) : Z :=
  match r with
  | TRICORE_CPU_FCX => FCX s
  | TRICORE_CPU_PCXI => PCXI s
  | TRICORE_CPU_ICR => ICR s
  | TRICORE_CPU_PSW => PSW s
  | TRICORE_CPU_SYSCON => SYSCON s
  end.

Definition write_creg (r : creg) (v : Z) (s : state) : state :=
  match r with
  | TRICORE_CPU_FCX => set_FCX v s
  | TRICORE_CPU_PCXI => set_PCXI v s
  | TRICORE_CPU_ICR => set_ICR v s
  | TRICORE_CPU_PSW => set_PSW v s
  | TRICORE_CPU_SYSCON => set_SYSCON v s
  end.

Definition TriCore__mfcr (r : creg) : M Z :=
  fun s => Done (read_creg r s) (log (EvMfcr r (read_creg r s) (IE s)) s).

Definition TriCore__mtcr (r : creg) (v : Z) : M unit :=
  fun s => Done tt (log (EvMtcr r v (IE s)) (write_creg r v s)).

(** Modelled from the spec: [portENTER_CRITICAL] and [portEXIT_CRITICAL] are
    kernel macros, not part of port.c; the spec has the pool manipulation run
    "atomically (interrupts masked on the current core)". Only the nesting of
    critical sections is kept: how the kernel masks interrupts inside the
    section (the priority field of the interrupt control register) is not
    modelled, and no property below speaks about that field across these
    two macros. *)
Definition portENTER_CRITICAL : M unit :=
  fun s => Done tt (set_nesting (uxCriticalNesting s + 1) s).
Definition portEXIT_CRITICAL : M unit :=
  fun s => Done tt (set_nesting (uxCriticalNesting s - 1) s).

(** *** pxPortInitialiseStack (port.c, lines 109-188) *)

Definition pxPortInitialiseStack (pxTopOfStack pxCode pvParameters : Z) : M Z :=
  portENTER_CRITICAL ;;;
  TriCore__dsync ;;;
  (* Consume two free CSAs. *)
  fcx <- TriCore__mfcr TRICORE_CPU_FCX ;;
  let pulLowerCSA := portCSA_TO_ADDRESS fcx in
  pulUpperCSA <- (if negb (pulLowerCSA =? NULL)
                  then l <- load pulLowerCSA 0 ;; ret (portCSA_TO_ADDRESS l)
                  else ret NULL) ;;
  (if negb (pulLowerCSA =? NULL) && negb (pulUpperCSA =? NULL)
   then
     (* Remove the two consumed CSAs from the free CSA list. *)
     TriCore__disable ;;;
     TriCore__dsync ;;;
     l <- load pulUpperCSA 0 ;;
     TriCore__mtcr TRICORE_CPU_FCX l ;;;
     TriCore__isync ;;;
     TriCore__enable
   else
     (* Simply trigger a context list depletion trap. *)
     TriCore__svlcx) ;;;
  portEXIT_CRITICAL ;;;
  (* Clear the upper CSA. *)
  memset0 pulUpperCSA (portNUM_WORDS_IN_CSA * sizeof_unsigned_long) ;;;
  store pulUpperCSA 2 pxTopOfStack ;;;
  store pulUpperCSA 1 portSYSTEM_PROGRAM_STATUS_WORD ;;;
  (* Clear the lower CSA. *)
  memset0 pulLowerCSA (portNUM_WORDS_IN_CSA * sizeof_unsigned_long) ;;;
  store pulLowerCSA 8 pvParameters ;;;
  store pulLowerCSA 1 pxCode ;;;
  (* PCXI pointing to the Upper context. *)
  store pulLowerCSA 0
        (Z.lor portINITIAL_PCXI_UPPER_CONTEXT_WORD (portADDRESS_TO_CSA pulUpperCSA)) ;;;
  TriCore__dsync ;;;
  ret (portADDRESS_TO_CSA pulLowerCSA).

(** *** The generic kernel's entry points, as port.c sees them

    Modelled from the spec: tasks.c is not part of port.c. The task-selection
    policy is a "no-argument call that updates a global current-task
    indirection to point at the next task to run", tick accounting a
    "no-argument call returning a boolean: switch due". *)

Definition vTaskSwitchContext : M unit :=
  fun s =>
    let r := task_selection (kernel s) in
    Done tt (log (EvSwitchContext (IE s) (snd r)) (set_current (fst r) (snd r) s)).

Definition xTaskIncrementTick : M Z :=
  fun s =>
    let r := tick_accounting (kernel s) in
    Done (snd r) (log (EvIncrementTick (ICR s) (snd r)) (set_kernel (fst r) s)).

(** [*pxCurrentTCB], the first word of the running task's control block. *)
Definition load_pxCurrentTCB : M Z := fun s => load (pxCurrentTCB s) 0 s.
Definition store_pxCurrentTCB (v : Z) : M unit := fun s => store (pxCurrentTCB s) 0 v s.

(** *** prvYield (port.c, lines 296-332) *)

Definition prvYield : M unit :=
  TriCore__disable ;;;
  TriCore__dsync ;;;
  xUpperCSA <- TriCore__mfcr TRICORE_CPU_PCXI ;;
  let pxUpperCSA := portCSA_TO_ADDRESS xUpperCSA in
  l <- load pxUpperCSA 0 ;;
  store_pxCurrentTCB l ;;;
  vTaskSwitchContext ;;;
  h <- load_pxCurrentTCB ;;
  store pxUpperCSA 0 h ;;;
  TriCore__isync ;;;
  TriCore__enable.

(** *** uxPortSetInterruptMaskFromISR (port.c, lines 485-497) *)

Definition uxPortSetInterruptMaskFromISR : M Z :=
  TriCore__disable ;;;
  uxReturn <- TriCore__mfcr TRICORE_CPU_ICR ;;
  TriCore__mtcr TRICORE_CPU_ICR
    (Z.lor (Z.land uxReturn (not32 portCCPN_MASK)) configMAX_SYSCALL_INTERRUPT_PRIORITY) ;;;
  TriCore__isync ;;;
  TriCore__enable ;;;
  (* Return just the interrupt mask bits. *)
  ret (Z.land uxReturn portCCPN_MASK).

(** Modelled from the spec: the two macros of portmacro.h are not part of
    port.c. Setting the mask is the function above; clearing it is step (c)
    "unmask" of the tick handler, which puts the saved field back. *)
Definition portSET_INTERRUPT_MASK_FROM_ISR : M Z := uxPortSetInterruptMaskFromISR.

Definition portCLEAR_INTERRUPT_MASK_FROM_ISR (uxSavedMaskValue : Z) : M unit :=
  TriCore__disable ;;;
  ulICR <- TriCore__mfcr TRICORE_CPU_ICR ;;
  TriCore__mtcr TRICORE_CPU_ICR (Z.lor (Z.land ulICR (not32 portCCPN_MASK)) uxSavedMaskValue) ;;;
  TriCore__isync ;;;
  TriCore__enable.

(** *** vPortSystemTickHandler (port.c, lines 334-371) *)

Definition vPortSystemTickHandler : M unit :=
  ulSavedInterruptMask <- portSET_INTERRUPT_MASK_FROM_ISR ;;
  lYieldRequired <- xTaskIncrementTick ;;
  portCLEAR_INTERRUPT_MASK_FROM_ISR ulSavedInterruptMask ;;;
  if negb (lYieldRequired =? pdFALSE) then prvYield else ret tt.

(** Modelled from the spec: [IfxStm_increaseCompare] belongs to the timer
    driver, not to port.c; it is the reload primitive that "reprograms the
    timer's compare value forward" by the given number of ticks. *)
Definition IfxStm_increaseCompare (ticks : Z) : M unit :=
  fun s => Done tt (set_comparator (comparator s + ticks) s).

(** *** isrSTM (port.c, lines 205-213) *)

Definition isrSTM : M unit :=
  ticks <- (fun s => Done (g_ticksFor1ms s) s) ;;
  IfxStm_increaseCompare ticks ;;;
  vPortSystemTickHandler.

(** *** vPortReclaimCSA (port.c, lines 393-446)

    The [while] loop runs on fuel: one unit per record visited. *)

Fixpoint reclaim_walk (fuel : nat) (pxTailCSA pulNextCSA : Z) : M Z :=
  match fuel with
  | O => fun _ => OutOfFuel
  | S fuel' =>
      l <- load pulNextCSA 0 ;;
      if negb (Z.land l portCSA_FCX_MASK =? 0)
      then
        (* Clear all bits of the pointer to the next in the chain, other
           than the address bits themselves. *)
        store pulNextCSA 0 (Z.land l portCSA_FCX_MASK) ;;;
        (* Move the pointer to point to the next CSA in the list. *)
        pxTailCSA' <- load pulNextCSA 0 ;;
        reclaim_walk fuel' pxTailCSA' (portCSA_TO_ADDRESS pxTailCSA')
      else ret pxTailCSA
  end.

Definition vPortReclaimCSA (fuel : nat) (pxTCB : Z) : M unit :=
  t <- load pxTCB 0 ;;
  let pxHeadCSA := Z.land t portCSA_FCX_MASK in
  pxTailCSA <- reclaim_walk fuel pxHeadCSA (portCSA_TO_ADDRESS pxHeadCSA) ;;
  TriCore__disable ;;;
  (* Look up the current free CSA head. *)
  TriCore__dsync ;;;
  pxFreeCSA <- TriCore__mfcr TRICORE_CPU_FCX ;;
  (* Join the current Free onto the Tail of what is being reclaimed. *)
  store (portCSA_TO_ADDRESS pxTailCSA) 0 pxFreeCSA ;;;
  (* Move the head of the reclaimed into the Free. *)
  TriCore__dsync ;;;
  TriCore__mtcr TRICORE_CPU_FCX pxHeadCSA ;;;
  TriCore__isync ;;;
  TriCore__enable.

(** *** vTrapYield, vPortSystemTaskHandler, vPortYield (port.c, lines 455-481) *)

Definition configASSERT (b : bool) : M unit :=
  if b then ret tt else raise AssertionFailed.

Definition vTrapYield (iTrapIdentification : Z) : M unit :=
  if iTrapIdentification =? portSYSCALL_TASK_YIELD
  then prvYield
  else (* Unimplemented trap called. *) configASSERT false.

Definition vPortSystemTaskHandler : M unit := prvYield.

Definition vPortYield : M unit :=
  TriCore__svlcx ;;;
  vPortSystemTaskHandler ;;;
  TriCore__rslcx.

(** ** Chains of context records *)

(** The identifier in the link word (word 0) of record [c]. *)
Definition link (m : memory) (c : Z) : Z :=
  Z.land (m (portCSA_TO_ADDRESS c)) portCSA_FCX_MASK.

(** An identifier with nothing outside its 20 bits. *)
Definition masked (x : Z) : Prop := Z.land x portCSA_FCX_MASK = x.

(** [chain m c ids e]: following link words from identifier [c] visits
    exactly the records [ids], in this order, and then reaches [e]. *)
Fixpoint chain (m : memory) (c : Z) (ids : list Z) (e : Z) : Prop :=
  match ids with
  | [] => c = e
  | x :: rest => c = x /\ x <> 0 /\ chain m (link m x) rest e
  end.

(** The records reachable from identifier [c], computed; [None] when the
    terminator is not reached within [fuel] records. *)
Fixpoint walk (fuel : nat) (m : memory) (c : Z) : option (list Z) :=
  match fuel with
  | O => None
  | S fuel' =>
      if c =? 0 then Some []
      else match walk fuel' m (link m c) with
           | Some l => Some (c :: l)
           | None => None
           end
  end.

(** The Free Pool: the records reachable from the free-list head register. *)
Definition free_pool (s : state) (P : list Z) : Prop :=
  chain (mem s) (Z.land (FCX s) portCSA_FCX_MASK) P 0.

(** The context chain of the task whose control block is at [pxTCB]. *)
Definition task_chain (s : state) (pxTCB : Z) (C : list Z) : Prop :=
  chain (mem s) (Z.land (mem s pxTCB) portCSA_FCX_MASK) C 0.

(** Address [a] lies in none of the 16-word records [ids]. *)
Definition outside (ids : list Z) (a : Z) : bool :=
  forallb (fun c => (a <? portCSA_TO_ADDRESS c)
                    || (portCSA_TO_ADDRESS c + portNUM_WORDS_IN_CSA * sizeof_unsigned_long <=? a))
          ids.

(** The two records at the head of the free list that
    [pxPortInitialiseStack] consumes. *)
Definition lower_of (s : state) : Z := portCSA_TO_ADDRESS (FCX s).
Definition upper_of (s : state) : Z := portCSA_TO_ADDRESS (mem s (lower_of s)).

Definition two_free (s : state) : Prop :=
  lower_of s <> NULL /\ upper_of s <> NULL /\ lower_of s <> upper_of s.

(** The test of [pxPortInitialiseStack] (line 147): both records are there. *)
Definition two_free_b (s : state) : bool :=
  negb (lower_of s =? NULL) && negb (upper_of s =? NULL).

(** The state in which [pxPortInitialiseStack] executes [TriCore__svlcx]
    when that test fails: the critical section is entered and the
    free-list head has been read; nothing has been written. *)
Definition exhausted_entry (s : state) : state :=
  log (EvMfcr TRICORE_CPU_FCX (FCX s) (IE s)) (set_nesting (uxCriticalNesting s + 1) s).

(** The memory and the state that [pxPortInitialiseStack] leaves when it
    has taken the two records at the head of the free list. *)
Definition initial_context (m : memory) (pulLowerCSA pulUpperCSA : Z)
           (pxTopOfStack pxCode pvParameters : Z) : memory :=
  upd (upd (upd (zero_words
    (upd (upd (zero_words m pulUpperCSA 16)
              (at_index pulUpperCSA 2) pxTopOfStack)
         (at_index pulUpperCSA 1) portSYSTEM_PROGRAM_STATUS_WORD)
    pulLowerCSA 16)
    (at_index pulLowerCSA 8) pvParameters)
    (at_index pulLowerCSA 1) pxCode)
    (at_index pulLowerCSA 0)
    (Z.lor portINITIAL_PCXI_UPPER_CONTEXT_WORD (portADDRESS_TO_CSA pulUpperCSA)).

(** What [pxPortInitialiseStack] does to the outside, newest first: the
    free-list head is read inside the kernel's critical section, the head
    register is written with interrupts disabled, and the two records are
    filled after the critical section has been left, interrupts enabled. *)
Definition build_events (pxTopOfStack pxCode pvParameters : Z) (s : state)
  : list event :=
  let pulLowerCSA := lower_of s in
  let pulUpperCSA := upper_of s in
  [ EvStore (at_index pulLowerCSA 0)
            (Z.lor portINITIAL_PCXI_UPPER_CONTEXT_WORD (portADDRESS_TO_CSA pulUpperCSA))
            true;
    EvStore (at_index pulLowerCSA 1) pxCode true;
    EvStore (at_index pulLowerCSA 8) pvParameters true;
    EvMemset pulLowerCSA (portNUM_WORDS_IN_CSA * sizeof_unsigned_long) true;
    EvStore (at_index pulUpperCSA 1) portSYSTEM_PROGRAM_STATUS_WORD true;
    EvStore (at_index pulUpperCSA 2) pxTopOfStack true;
    EvMemset pulUpperCSA (portNUM_WORDS_IN_CSA * sizeof_unsigned_long) true;
    EvMtcr TRICORE_CPU_FCX (mem s pulUpperCSA) false;
    EvMfcr TRICORE_CPU_FCX (FCX s) (IE s) ].

Definition built (pxTopOfStack pxCode pvParameters : Z) (s : state) : state :=
  mkState (mem s (upper_of s)) (PCXI s) (Z.setbit (ICR s) ie_bit) (PSW s) (SYSCON s)
          (initial_context (mem s) (lower_of s) (upper_of s)
                           pxTopOfStack pxCode pvParameters)
          (pxCurrentTCB s) (kernel s) (uxCriticalNesting s + 1 - 1)
          (comparator s) (g_ticksFor1ms s)
          (build_events pxTopOfStack pxCode pvParameters s ++ trace s).

(** The state in which the kernel has created a task: the context is built
    and the handle is in the first word of the control block. *)
Definition created (pxTCB pxTopOfStack pxCode pvParameters : Z) (s : state) : state :=
  log (EvStore (at_index pxTCB 0) (portADDRESS_TO_CSA (lower_of s)) true)
    (set_mem (upd (mem (built pxTopOfStack pxCode pvParameters s)) (at_index pxTCB 0)
                  (portADDRESS_TO_CSA (lower_of s)))
             (built pxTopOfStack pxCode pvParameters s)).

(** The memory that the walk of [vPortReclaimCSA] leaves: the link word of
    every record of the chain but the last holds the bare identifier of its
    successor. *)
Fixpoint strip_links (m : memory) (ids : list Z) : memory :=
  match ids with
  | x :: (_ :: _) as rest =>
      strip_links (upd m (portCSA_TO_ADDRESS x)
                       (Z.land (m (portCSA_TO_ADDRESS x)) portCSA_FCX_MASK))
                  rest
  | _ => m
  end.

(** The stores of that walk, newest first, with the interrupt-enable bit
    [ie] the core has during the walk. *)
Fixpoint strip_events (m : memory) (ids : list Z) (ie : bool) : list event :=
  match ids with
  | x :: (_ :: _) as rest =>
      strip_events (upd m (portCSA_TO_ADDRESS x)
                        (Z.land (m (portCSA_TO_ADDRESS x)) portCSA_FCX_MASK))
                   rest ie
      ++ [EvStore (portCSA_TO_ADDRESS x)
                  (Z.land (m (portCSA_TO_ADDRESS x)) portCSA_FCX_MASK) ie]
  | _ => []
  end.

(** The state in which the walk of [vPortReclaimCSA] has reached the tail
    of the chain [ids]. *)
Definition walked (ids : list Z) (s : state) : state :=
  logs (strip_events (mem s) ids (IE s)) (set_mem (strip_links (mem s) ids) s).

(** The state that [vPortReclaimCSA] leaves for the chain [ids]. *)
Definition reclaimed (ids : list Z) (s : state) : state :=
  mkState (hd 0 ids) (PCXI s) (Z.setbit (ICR s) ie_bit) (PSW s) (SYSCON s)
          (upd (strip_links (mem s) ids) (portCSA_TO_ADDRESS (last ids 0)) (FCX s))
          (pxCurrentTCB s) (kernel s) (uxCriticalNesting s)
          (comparator s) (g_ticksFor1ms s)
          (EvMtcr TRICORE_CPU_FCX (hd 0 ids) false
           :: EvStore (portCSA_TO_ADDRESS (last ids 0)) (FCX s) false
           :: EvMfcr TRICORE_CPU_FCX (FCX s) false
           :: strip_events (mem s) ids (IE s) ++ trace s).

(** ** Tasks created and deleted by the kernel

    Modelled from the spec: task creation and deletion are in tasks.c. The
    kernel keeps the handle that [pxPortInitialiseStack] returns in the first
    word of the task's control block, and the cleanup of a deleted task calls
    the reclaim entry point "once per terminated task". *)




(** The kernel builds the context of a new task and keeps the handle in the
    first word of the control block. *)
Definition create_task (pxTCB pxTopOfStack pxCode pvParameters : Z) : M unit :=
  h <- pxPortInitialiseStack pxTopOfStack pxCode pvParameters ;;
  store pxTCB 0 h.






(** ** Interleavings of switches on one core *)

(** What happens on the core between two entries into the port: the core
    and the running task rewrite registers, memory and kernel data, but the
    current-task pointer is written by [vTaskSwitchContext] only. *)
Definition environment (h : state -> state) : M unit :=
  fun s =>
    let s' := h s in
    Done tt (mkState (FCX s') (PCXI s') (ICR s') (PSW s') (SYSCON s') (mem s')
                     (pxCurrentTCB s) (kernel s') (uxCriticalNesting s') (comparator s')
                     (g_ticksFor1ms s') (trace s)).

Inductive switch_op : Type :=
| OpYield
| OpTrapYield (iTrapIdentification : Z)
| OpTick
| OpEnvironment (h : state -> state).

Definition switch_step (o : switch_op) : M unit :=
  match o with
  | OpYield => vPortYield
  | OpTrapYield i => vTrapYield i
  | OpTick => vPortSystemTickHandler
  | OpEnvironment h => environment h
  end.

Fixpoint switch_run (ops : list switch_op) : M unit :=
  match ops with
  | [] => ret tt
  | o :: rest => switch_step o ;;; switch_run rest
  end.

(** The control block chosen by the most recent call of the task-selection
    policy recorded in a trace. *)
Fixpoint last_selected (tr : list event) : option Z :=
  match tr with
  | [] => None
  | EvSwitchContext _ t :: _ => Some t
  | _ :: rest => last_selected rest
  end.

Definition tick_calls (tr : list event) : list (Z * Z) :=
  flat_map (fun e => match e with EvIncrementTick icr r => [(icr, r)] | _ => [] end) tr.

Definition switch_calls (tr : list event) : list Z :=
  flat_map (fun e => match e with EvSwitchContext _ t => [t] | _ => [] end) tr.

(** The state that [prvYield] leaves. *)
Definition yielded (s : state) : state :=
  let a := portCSA_TO_ADDRESS (PCXI s) in
  let r := task_selection (kernel s) in
  let m1 := upd (mem s) (pxCurrentTCB s) (mem s a) in
  mkState (FCX s) (PCXI s) (Z.setbit (ICR s) ie_bit) (PSW s) (SYSCON s)
          (upd m1 a (m1 (snd r))) (snd r) (fst r)
          (uxCriticalNesting s) (comparator s) (g_ticksFor1ms s)
          (EvStore a (m1 (snd r)) false
           :: EvSwitchContext false (snd r)
           :: EvStore (pxCurrentTCB s) (mem s a) false
           :: EvMfcr TRICORE_CPU_PCXI (PCXI s) false :: trace s).

(** The interrupt control register with its priority field raised to the
    syscall priority, and with the field put back to [saved]. *)
Definition raised_ICR (icr : Z) : Z :=
  Z.lor (Z.land icr (not32 portCCPN_MASK)) configMAX_SYSCALL_INTERRUPT_PRIORITY.
Definition restored_ICR (icr saved : Z) : Z :=
  Z.lor (Z.land icr (not32 portCCPN_MASK)) saved.

(** The state that [uxPortSetInterruptMaskFromISR] leaves: the register
    is read and written with the enable bit cleared, and the bit is set at
    the end. *)
Definition mask_raised (s : state) : state :=
  let read := Z.clearbit (ICR s) ie_bit in
  log (EvMtcr TRICORE_CPU_ICR (raised_ICR read) false)
    (log (EvMfcr TRICORE_CPU_ICR read false)
       (set_ICR (Z.setbit (raised_ICR read) ie_bit) s)).

(** The state that [portCLEAR_INTERRUPT_MASK_FROM_ISR] leaves. *)
Definition mask_cleared (saved : Z) (s : state) : state :=
  let read := Z.clearbit (ICR s) ie_bit in
  log (EvMtcr TRICORE_CPU_ICR (restored_ICR read saved) false)
    (log (EvMfcr TRICORE_CPU_ICR read false)
       (set_ICR (Z.setbit (restored_ICR read saved) ie_bit) s)).

(** The state that [vPortSystemTickHandler] has reached when it tests
    [lYieldRequired]. *)
Definition tick_accounted (s : state) : state :=
  let s1 := mask_raised s in
  let r := tick_accounting (kernel s) in
  mask_cleared (Z.land (Z.clearbit (ICR s) ie_bit) portCCPN_MASK)
    (log (EvIncrementTick (ICR s1) (snd r)) (set_kernel (fst r) s1)).

(** The mask operation as the specification words it: the priority field
    is raised, every bit of the register outside the field is as it was,
    and the value returned is the previous field. *)
Definition priority_field_only (s : state) : Prop :=
  exists s',
    uxPortSetInterruptMaskFromISR s = Done (Z.land (ICR s) portCCPN_MASK) s'
    /\ Z.land (ICR s') portCCPN_MASK = configMAX_SYSCALL_INTERRUPT_PRIORITY
    /\ forall i, 0 <= i -> Z.testbit portCCPN_MASK i = false ->
          Z.testbit (ICR s') i = Z.testbit (ICR s) i.

(** The switch as the specification words it: the value of the context
    register itself is what is saved into the control block of the task
    that was running, and the register itself receives the handle of the
    task selected. *)
Definition switch_through_register (s : state) : Prop :=
  exists s',
    prvYield s = Done tt s'
    /\ mem s' (pxCurrentTCB s) = PCXI s
    /\ PCXI s' = mem s' (pxCurrentTCB s').

(** A switch has just completed: the current-task pointer is what the
    policy chose last, and the link word of the record that the context
    register identifies holds that task's saved-context handle. *)
Definition switch_completed (s : state) : Prop :=
  last_selected (trace s) = Some (pxCurrentTCB s)
  /\ mem s (portCSA_TO_ADDRESS (PCXI s)) = mem s (pxCurrentTCB s).

(** The current-task pointer is what the policy chose last. *)
Definition switch_consistent (s : state) : Prop :=
  forall t, last_selected (trace s) = Some t -> pxCurrentTCB s = t.

(** What the switch engine relies on about the context instructions:
    neither touches the kernel's current-task pointer or calls the kernel.
    Whether and when they trap is left open. *)
Record HardwareLaws : Prop := {
  svlcx_frame : forall s s',
    TriCore__svlcx s = Done tt s' ->
    pxCurrentTCB s' = pxCurrentTCB s /\ trace s' = trace s;
  rslcx_frame : forall s s',
    TriCore__rslcx s = Done tt s' ->
    pxCurrentTCB s' = pxCurrentTCB s /\ trace s' = trace s
}.

End Port.

Arguments HardwareLaws {K} HW.

(** * A TriCore TC3xx configuration

    The instance at which the properties are exercised: the identifier
    layout of the TriCore architecture (segment in bits 19:16, 64-byte
    offset in bits 15:0), an 8-bit priority field in bits 7:0 of the
    interrupt control register and its interrupt-enable bit at position 15,
    a kernel that runs its tasks in turn, and a core whose context
    instructions are followed on the link words only. *)

Module TC3xx.

Definition CSA_TO_ADDRESS (pCSA : Z) : Z :=
  Z.lor (Z.shiftl (Z.land pCSA 0x000F0000) 12) (Z.shiftl (Z.land pCSA 0x0000FFFF) 6).

Definition ADDRESS_TO_CSA (pAddress : Z) : Z :=
  Z.lor (Z.shiftr (Z.land pAddress 0xF0000000) 12)
        (Z.shiftr (Z.land pAddress 0x003FFFC0) 6).

#[export] Instance macros : PortMacros := {|
  portCSA_TO_ADDRESS := CSA_TO_ADDRESS;
  portADDRESS_TO_CSA := ADDRESS_TO_CSA;
  portCCPN_MASK := 0x000000FF;
  configMAX_SYSCALL_INTERRUPT_PRIORITY := 64;
  portSYSCALL_TASK_YIELD := 0;
  ICR_IE := 15
|}.

(** The kernel keeps the control blocks in a ring and counts ticks; a
    switch is due on every second tick. *)
#[export] Instance round_robin : Kernel := {|
  kstate := list Z * Z;
  task_selection := fun k =>
    match fst k with
    | [] => (k, 0)
    | t :: rest => ((rest ++ [t], snd k), t)
    end;
  tick_accounting := fun k =>
    ((fst k, snd k + 1), if Z.odd (snd k) then 1 else 0)
|}.

(** SVLCX takes the record at the free-list head and links it in front of
    the previous context; RSLCX gives the record of the previous context
    back to the free list. The traps of the context unit are left out. *)
#[export] Instance context_unit : Hardware := {|
  TriCore__svlcx := fun s =>
    let a := CSA_TO_ADDRESS (FCX s) in
    Done tt (set_FCX (mem s a)
               (set_PCXI (Z.land (FCX s) portCSA_FCX_MASK)
                  (set_mem (upd (mem s) a (PCXI s)) s)));
  TriCore__rslcx := fun s =>
    let a := CSA_TO_ADDRESS (PCXI s) in
    Done tt (set_PCXI (mem s a)
               (set_FCX (Z.land (PCXI s) portCSA_FCX_MASK)
                  (set_mem (upd (mem s) a (FCX s)) s)))
|}.

(** Four free records at 0x70000040, 0x70000080, 0x700000C0, 0x70000100,
    chained in this order. *)
Definition pool4_memory : memory :=
  upd (upd (upd (upd (fun _ => 0)
    0x70000100 0)
    0x700000C0 0x00070004)
    0x70000080 0x00070003)
    0x70000040 0x00070002.

Definition pool4 : state :=
  mkState 0x00070001 0 0x00008A00 0x00000B80 0 pool4_memory
          0x60000000 ([0x60000000; 0x60000100], 0) 0 1000 100000 [].

(** A task with control block 0x60000000 is running and has been
    interrupted: the context register names the record at 0x700000C0, whose
    link word names the record that holds the task's lower context. The
    task with control block 0x60000100 was switched out earlier with the
    handle 0x00070005. Three records are free. *)
Definition interrupted_memory : memory :=
  upd (upd (upd (upd (upd (upd (fun _ => 0)
    0x60000100 0x00070005)
    0x60000000 0x00070001)
    0x700000C0 0x00270002)
    0x70000180 0x00070007)
    0x700001C0 0x00070008)
    0x70000200 0.

Definition interrupted : state :=
  mkState 0x00070006 0x00370003 0x00008A28 0x00000B80 0 interrupted_memory
          0x60000000 ([0x60000100; 0x60000000], 1) 0 1000 100000 [].

(** The same task inside an interrupt handler that has not enabled
    interrupts again: the bit ICR.IE is clear. *)
Definition in_handler : state :=
  mkState 0x00070006 0x00370003 0x00000A28 0x00000B80 0 interrupted_memory
          0x60000000 ([0x60000100; 0x60000000], 1) 0 1000 100000 [].

(** A task chain of four records: the two of the initial context and two
    more from nested preemption, with tagged link words. *)
Definition chain4_memory : memory :=
  upd (upd (upd (upd (upd (upd (fun _ => 0)
    0x60000000 0x00370001)
    0x70000040 0x00370002)
    0x70000080 0x00270003)
    0x700000C0 0x00370004)
    0x70000100 0x00300000)
    0x70000140 0.

Definition chain4 : state :=
  mkState 0x00070005 0 0x00008A00 0x00000B80 0 chain4_memory
          0x60000100 ([0x60000100], 0) 0 1000 100000 [].

(** Two tasks are created, the first is deleted, a third is created. *)
Definition arena4 : list Z := [0x00070001; 0x00070002; 0x00070003; 0x00070004].




(** A tick with a switch due, the core entering a trap, the yield system
    call, and a voluntary yield. *)
Definition switches : list switch_op :=
  [ OpTick; OpEnvironment (set_PCXI 0x00370003); OpTrapYield 0; OpYield ].

Definition after_switches : state :=
  match switch_run switches interrupted with
  | Done _ s => s
  | _ => interrupted
  end.

End TC3xx.

(** * The rest of port.c *)

(** [initSTM] (port.c, lines 241-254) sets the system timer up through
    calls into the timer driver only; its effect is a parameter. *)
Class TimerSetup `{Kernel} : Type := {
  initSTM : M unit
}.

(** The static buffers of [vApplicationGetIdleTaskMemory] and
    [vApplicationGetTimerTaskMemory]: where the linker has put the arrays,
    and the sizes that FreeRTOS.h and FreeRTOSConfig.h give. *)
Class StaticBuffers : Type := {
  xIdleTaskTCBs : Z;
  uxIdleTaskStacks : Z;
  xTimerTaskTCBs : Z;
  uxTimerTaskStack : Z;
  sizeof_StaticTask_t : Z;
  configMINIMAL_STACK_SIZE : Z;
  configTIMER_TASK_STACK_DEPTH : Z
}.

Section PortRest.

Context {K : Kernel} {PM : PortMacros} {HW : Hardware} {TS : TimerSetup}
        {SB : StaticBuffers}.

(** *** xPortStartScheduler (port.c, lines 255-293) *)

Definition xPortStartScheduler : M Z :=
  initSTM ;;;
  TriCore__disable ;;;
  (* Load the initial SYSCON. *)
  TriCore__mtcr TRICORE_CPU_SYSCON portINITIAL_SYSCON ;;;
  TriCore__isync ;;;
  (* Clear the PSW.CDC to enable the use of an RFE. *)
  ulMFCR <- TriCore__mfcr TRICORE_CPU_PSW ;;
  TriCore__dsync ;;;
  TriCore__mtcr TRICORE_CPU_PSW (Z.land ulMFCR portRESTORE_PSW_MASK) ;;;
  TriCore__isync ;;;
  (* Finally, perform the equivalent of a portRESTORE_CONTEXT() *)
  t <- load_pxCurrentTCB ;;
  let pulCSA := portCSA_TO_ADDRESS t in
  _ <- load pulCSA 0 ;;
  TriCore__dsync ;;;
  t' <- load_pxCurrentTCB ;;
  TriCore__mtcr TRICORE_CPU_PCXI t' ;;;
  TriCore__isync ;;;
  TriCore__nop ;;;
  TriCore__rslcx ;;;
  TriCore__nop ;;;
  TriCore__enable ;;;
  ret 0.

(** The state in which [xPortStartScheduler] executes [rslcx], the timer
    having been set up in [s0]. *)
Definition primed (s0 : state) : state :=
  let psw := Z.land (PSW s0) portRESTORE_PSW_MASK in
  let h := mem s0 (pxCurrentTCB s0) in
  mkState (FCX s0) h (Z.clearbit (ICR s0) ie_bit) psw portINITIAL_SYSCON (mem s0)
          (pxCurrentTCB s0) (kernel s0) (uxCriticalNesting s0)
          (comparator s0) (g_ticksFor1ms s0)
          (EvMtcr TRICORE_CPU_PCXI h false
           :: EvMtcr TRICORE_CPU_PSW psw false
           :: EvMfcr TRICORE_CPU_PSW (PSW s0) false
           :: EvMtcr TRICORE_CPU_SYSCON portINITIAL_SYSCON false :: trace s0).

(** *** vPortEndScheduler (port.c, lines 449-452) *)

Definition vPortEndScheduler : M unit := ret tt.

(** *** vApplicationGetIdleTaskMemory, vApplicationGetTimerTaskMemory
        (port.c, lines 510-568; compiled when configSUPPORT_STATIC_ALLOCATION
        is 1). [core] is the value of the core-identification register. *)

Definition sizeof_StackType_t : Z := 4.

Definition vApplicationGetIdleTaskMemory (core : Z)
           (ppxIdleTaskTCBBuffer ppxIdleTaskStackBuffer pulIdleTaskStackSize : Z)
  : M unit :=
  store ppxIdleTaskTCBBuffer 0 (xIdleTaskTCBs + core * sizeof_StaticTask_t) ;;;
  store ppxIdleTaskStackBuffer 0
        (uxIdleTaskStacks + core * (configMINIMAL_STACK_SIZE * sizeof_StackType_t)) ;;;
  store pulIdleTaskStackSize 0 configMINIMAL_STACK_SIZE.

Definition vApplicationGetTimerTaskMemory (core : Z)
           (ppxTimerTaskTCBBuffer ppxTimerTaskStackBuffer pulTimerTaskStackSize : Z)
  : M unit :=
  store ppxTimerTaskTCBBuffer 0 (xTimerTaskTCBs + core * sizeof_StaticTask_t) ;;;
  store ppxTimerTaskStackBuffer 0 uxTimerTaskStack ;;;
  store pulTimerTaskStackSize 0 configTIMER_TASK_STACK_DEPTH.

(** *** Runs of the port's entry points *)



(** A chain that comes back to its first record. *)
Definition cyclic (m : memory) (h : Z) (ids : list Z) : Prop :=
  ids <> [] /\ chain m h ids h.

End PortRest.

Module TC3xxRest.

Import TC3xx.

#[export] Instance timer : TimerSetup := {|
  initSTM := fun s => Done tt (set_comparator 100000 s)
|}.

#[export] Instance buffers : StaticBuffers := {|
  xIdleTaskTCBs := 0x60001000;
  uxIdleTaskStacks := 0x60002000;
  xTimerTaskTCBs := 0x60008000;
  uxTimerTaskStack := 0x60009000;
  sizeof_StaticTask_t := 96;
  configMINIMAL_STACK_SIZE := 256;
  configTIMER_TASK_STACK_DEPTH := 512
|}.

(** The control block at 0x60000000 holds a handle whose chain of two
    records links back to its first record. *)
Definition looped_memory : memory :=
  upd (upd (upd (fun _ => 0)
    0x60000000 0x00370001)
    0x70000040 0x00370002)
    0x70000080 0x00270001.

Definition looped : state :=
  mkState 0x00070005 0 0x00008A00 0x00000B80 0 looped_memory
          0x60000100 ([0x60000100], 0) 0 1000 100000 [].

(** The interrupted task is the only one the kernel has to run. *)
Definition alone : state :=
  mkState 0x00070006 0x00370003 0x00008A28 0x00000B80 0 interrupted_memory
          0x60000000 ([0x60000000], 1) 0 1000 100000 [].

(** Four free records; the task with control block 0x60000100 runs and has
    been interrupted with the context register naming the record at
    0x70000240; the kernel will select the control block 0x60000000 next. *)
Definition before_first_run_memory : memory :=
  upd (upd pool4_memory
    0x70000240 0x00270008)
    0x60000100 0x00070008.

Definition before_first_run : state :=
  mkState 0x00070001 0x00370009 0x00008A00 0x00000B80 0
          before_first_run_memory
          0x60000100 ([0x60000000; 0x60000100], 0) 0 1000 100000 [].

End TC3xxRest.

(** * Properties *)

Section PortProofs.

Context {K : Kernel} {PM : PortMacros} {HW : Hardware}.

(** ** Memory *)

Lemma upd_same (m : memory) a v : upd m a v a = v.
Proof. unfold upd. now rewrite Z.eqb_refl. Qed.

Lemma upd_other (m : memory) a v x : x <> a -> upd m a v x = m x.
Proof. unfold upd. intros Hx. destruct (Z.eqb_spec x a); congruence. Qed.

Lemma zero_words_inside (m : memory) p n i :
  0 <= i < Z.of_nat n -> zero_words m p n (at_index p i) = 0.
Proof.
  induction n as [|n IH]; intros Hi; [lia|].
  cbn [zero_words]. destruct (Z.eq_dec i (Z.of_nat n)) as [->|Hne].
  - apply upd_same.
  - rewrite upd_other.
    + apply IH. lia.
    + unfold at_index, sizeof_unsigned_long. lia.
Qed.

Lemma zero_words_outside (m : memory) p n x :
  (forall i, 0 <= i < Z.of_nat n -> x <> at_index p i) ->
  zero_words m p n x = m x.
Proof.
  induction n as [|n IH]; intros Hx; [reflexivity|].
  cbn [zero_words]. rewrite upd_other.
  - apply IH. intros i Hi. apply Hx. lia.
  - apply Hx. lia.
Qed.

(** ** The identifier encoding *)

Section Encoding.

Hypothesis L : CsaLaws.

Lemma address_null_iff c :
  portCSA_TO_ADDRESS c = NULL <-> Z.land c portCSA_FCX_MASK = 0.
Proof.
  split; intros Hc.
  - rewrite <- (csa_round_trip L c), Hc.
    rewrite <- (csa_null L), (csa_round_trip L 0). reflexivity.
  - rewrite <- (csa_low20 L c), Hc. apply (csa_null L).
Qed.

Lemma address_injective a b :
  portCSA_TO_ADDRESS a = portCSA_TO_ADDRESS b ->
  Z.land a portCSA_FCX_MASK = Z.land b portCSA_FCX_MASK.
Proof.
  intros Hab. rewrite <- (csa_round_trip L a), <- (csa_round_trip L b).
  now rewrite Hab.
Qed.

Lemma records_apart a b :
  portCSA_TO_ADDRESS a <> portCSA_TO_ADDRESS b ->
  portCSA_TO_ADDRESS a + 64 <= portCSA_TO_ADDRESS b
  \/ portCSA_TO_ADDRESS b + 64 <= portCSA_TO_ADDRESS a.
Proof.
  intros Hne.
  pose proof (csa_aligned L a) as Ha. pose proof (csa_aligned L b) as Hb.
  apply Z.mod_divide in Ha; [|lia]. apply Z.mod_divide in Hb; [|lia].
  destruct Ha as [x Hx], Hb as [y Hy]. lia.
Qed.

Lemma mask_idempotent c :
  Z.land (Z.land c portCSA_FCX_MASK) portCSA_FCX_MASK = Z.land c portCSA_FCX_MASK.
Proof. rewrite <- Z.land_assoc. f_equal. Qed.

End Encoding.

(** ** pxPortInitialiseStack *)

Lemma memset0_record p s :
  memset0 p (portNUM_WORDS_IN_CSA * sizeof_unsigned_long) s
  = Done tt (log (EvMemset p (portNUM_WORDS_IN_CSA * sizeof_unsigned_long) (IE s))
                 (set_mem (zero_words (mem s) p 16) s)).
Proof. reflexivity. Qed.

Lemma at_index_0 p : at_index p 0 = p.
Proof. unfold at_index. lia. Qed.

Lemma bind_eq {A B} (m : M A) (k : A -> M B) s a s' :
  m s = Done a s' -> bind m k s = k a s'.
Proof. unfold bind. intros ->. reflexivity. Qed.

Lemma bind_trapped {A B} (m : M A) (k : A -> M B) s t s' :
  m s = Trapped t s' -> bind m k s = Trapped t s'.
Proof. unfold bind. intros ->. reflexivity. Qed.

Ltac proj :=
  unfold IE;
  cbn [negb andb read_creg write_creg
       set_FCX set_PCXI set_ICR set_PSW set_SYSCON set_IE set_mem set_current
       set_kernel set_nesting set_comparator log logs
       FCX PCXI ICR PSW SYSCON mem pxCurrentTCB kernel
       uxCriticalNesting comparator g_ticksFor1ms trace].

(** One statement of a port function: the first action of a [bind] runs to
    completion and the rest continues in the state it leaves. *)
Ltac step := erewrite bind_eq by reflexivity; cbv beta; proj.

(** ** The interrupt-enable bit *)

Lemma ie_bit_nonneg : 0 <= ie_bit.
Proof. apply Nat2Z.is_nonneg. Qed.

Lemma IE_disable x : Z.testbit (Z.clearbit x ie_bit) ie_bit = false.
Proof. apply Z.clearbit_eq. Qed.

Lemma IE_enable x : Z.testbit (Z.setbit x ie_bit) ie_bit = true.
Proof. apply Z.setbit_eq, ie_bit_nonneg. Qed.

Lemma enable_disable x : Z.setbit (Z.clearbit x ie_bit) ie_bit = Z.setbit x ie_bit.
Proof.
  apply Z.bits_inj'. intros i _.
  rewrite !Z.setbit_eqb, Z.clearbit_eqb by apply ie_bit_nonneg.
  destruct (ie_bit =? i), (Z.testbit x i); reflexivity.
Qed.

Lemma disable_enable x : Z.clearbit (Z.setbit x ie_bit) ie_bit = Z.clearbit x ie_bit.
Proof.
  apply Z.bits_inj'. intros i _.
  rewrite !Z.clearbit_eqb, Z.setbit_eqb by apply ie_bit_nonneg.
  destruct (ie_bit =? i), (Z.testbit x i); reflexivity.
Qed.

Lemma enable_enable x : Z.setbit (Z.setbit x ie_bit) ie_bit = Z.setbit x ie_bit.
Proof.
  apply Z.bits_inj'. intros i _.
  rewrite !Z.setbit_eqb by apply ie_bit_nonneg.
  destruct (ie_bit =? i), (Z.testbit x i); reflexivity.
Qed.

Lemma enabled_set x : Z.testbit x ie_bit = true -> Z.setbit x ie_bit = x.
Proof.
  intros Hx. apply Z.bits_inj'. intros i _.
  rewrite Z.setbit_eqb by apply ie_bit_nonneg.
  destruct (Z.eqb_spec ie_bit i) as [<-|_]; [now rewrite Hx|reflexivity].
Qed.

(** The interrupt-enable bit after [TriCore__disable] and after
    [TriCore__enable], and the register after the pair. *)
Ltac flags :=
  rewrite ?IE_disable, ?IE_enable, ?enable_disable, ?disable_enable, ?enable_enable.

Lemma state_eta (s : state) :
  s = mkState (FCX s) (PCXI s) (ICR s) (PSW s) (SYSCON s) (mem s) (pxCurrentTCB s)
              (kernel s) (uxCriticalNesting s) (comparator s) (g_ticksFor1ms s)
              (trace s).
Proof. destruct s. reflexivity. Qed.

(** The state a port function has reached, field by field. *)
Ltac reached :=
  unfold ret;
  match goal with
  | |- Done _ ?st = _ => rewrite (state_eta st)
  end;
  proj; flags.

Lemma pxPortInitialiseStack_success top code par s :
  lower_of s <> NULL -> upper_of s <> NULL ->
  pxPortInitialiseStack top code par s
  = Done (portADDRESS_TO_CSA (lower_of s)) (built top code par s).
Proof.
  unfold built, build_events, initial_context, upper_of, lower_of. intros Hl Hu.
  unfold pxPortInitialiseStack.
  do 3 step.
  destruct (Z.eqb_spec (portCSA_TO_ADDRESS (FCX s)) NULL) as [E|_];
    [contradiction|].
  proj. step. rewrite at_index_0.
  destruct (Z.eqb_spec (portCSA_TO_ADDRESS (mem s (portCSA_TO_ADDRESS (FCX s)))) NULL)
    as [E|_]; [contradiction|].
  proj. repeat step. reached. rewrite !at_index_0. reflexivity.
Qed.

(** When the free list cannot supply the two records,
    [pxPortInitialiseStack] executes SVLCX in the state [exhausted_entry],
    before it has written anything; what follows is that instruction's. *)
Lemma pxPortInitialiseStack_exhausted top code par s :
  lower_of s = NULL \/ upper_of s = NULL ->
  exists k : unit -> M Z,
    pxPortInitialiseStack top code par s = bind TriCore__svlcx k (exhausted_entry s).
Proof.
  intros Hd. unfold upper_of, lower_of in Hd.
  unfold pxPortInitialiseStack.
  do 3 step.
  destruct (Z.eqb_spec (portCSA_TO_ADDRESS (FCX s)) NULL) as [E|Hl]; proj.
  - step. eexists. reflexivity.
  - step. rewrite at_index_0.
    destruct Hd as [E|E]; [contradiction|].
    rewrite E. change (NULL =? NULL) with true. proj.
    eexists. reflexivity.
Qed.

Lemma exhausted_build_traps top code par s t s' :
  lower_of s = NULL \/ upper_of s = NULL ->
  TriCore__svlcx (exhausted_entry s) = Trapped t s' ->
  pxPortInitialiseStack top code par s = Trapped t s'.
Proof.
  intros Hd Ht.
  destruct (pxPortInitialiseStack_exhausted top code par s Hd) as (k & ->).
  now apply bind_trapped.
Qed.


(** C1. With two distinct free records at the head of the free list,
    [pxPortInitialiseStack] returns the identifier of the Lower Context
    (the record the free-list head named); the Upper Context (the record
    the head linked to) holds the stack pointer in word 2 and the initial
    program status word 0x8FF (I/O privilege field, bits 11:10, at
    supervisor level 2; call depth counter, bits 6:0, all ones, which
    disables call-depth counting) in word 1; the Lower Context holds the
    argument in word 8, the entry address in word 1 and, in word 0, the
    linked-to-upper tag 0x00300000 or-ed with the identifier of the Upper
    Context; every other word of the two 16-word records is zero. *)
Theorem pxPortInitialiseStack_builds_context
  (L : CsaLaws) (pxTopOfStack pxCode pvParameters : Z) (s : state) :
  two_free s ->
  exists s',
    pxPortInitialiseStack pxTopOfStack pxCode pvParameters s
    = Done (portADDRESS_TO_CSA (lower_of s)) s'
    /\ portADDRESS_TO_CSA (lower_of s) = Z.land (FCX s) portCSA_FCX_MASK
    /\ portADDRESS_TO_CSA (upper_of s) = link (mem s) (FCX s)
    /\ Z.land (Z.shiftr portSYSTEM_PROGRAM_STATUS_WORD 10) 3 = 2
    /\ Z.land portSYSTEM_PROGRAM_STATUS_WORD 0x7F = 0x7F
    /\ (forall i, 0 <= i < portNUM_WORDS_IN_CSA ->
          mem s' (at_index (upper_of s) i)
          = if i =? 2 then pxTopOfStack
            else if i =? 1 then portSYSTEM_PROGRAM_STATUS_WORD
            else 0)
    /\ (forall i, 0 <= i < portNUM_WORDS_IN_CSA ->
          mem s' (at_index (lower_of s) i)
          = if i =? 8 then pvParameters
            else if i =? 1 then pxCode
            else if i =? 0
                 then Z.lor portINITIAL_PCXI_UPPER_CONTEXT_WORD
                            (portADDRESS_TO_CSA (upper_of s))
            else 0).
Proof.
  intros (Hl & Hu & Hlu).
  assert (Hapart : lower_of s + 64 <= upper_of s \/ upper_of s + 64 <= lower_of s)
    by (apply (records_apart L); exact Hlu).
  exists (built pxTopOfStack pxCode pvParameters s).
  split; [apply pxPortInitialiseStack_success; assumption|].
  split; [apply (csa_round_trip L)|].
  split; [apply (csa_round_trip L)|].
  split; [reflexivity|]. split; [reflexivity|].
  unfold portNUM_WORDS_IN_CSA, built, initial_context. cbn [mem].
  split; intros i Hi.
  - rewrite !upd_other by (unfold at_index, sizeof_unsigned_long; lia).
    rewrite zero_words_outside
      by (intros j Hj; unfold at_index, sizeof_unsigned_long; lia).
    destruct (Z.eqb_spec i 2) as [->|H2].
    { rewrite upd_other by (unfold at_index, sizeof_unsigned_long; lia).
      apply upd_same. }
    destruct (Z.eqb_spec i 1) as [->|H1]; [apply upd_same|].
    rewrite !upd_other by (unfold at_index, sizeof_unsigned_long; lia).
    apply zero_words_inside. lia.
  - destruct (Z.eqb_spec i 8) as [->|H8].
    { rewrite !upd_other by (unfold at_index, sizeof_unsigned_long; lia).
      apply upd_same. }
    destruct (Z.eqb_spec i 1) as [->|H1].
    { rewrite upd_other by (unfold at_index, sizeof_unsigned_long; lia).
      apply upd_same. }
    destruct (Z.eqb_spec i 0) as [->|H0]; [apply upd_same|].
    rewrite !upd_other by (unfold at_index, sizeof_unsigned_long; lia).
    apply zero_words_inside. lia.
Qed.

(** ** Chains *)

Section Chains.

Hypothesis L : CsaLaws.

Lemma link_masked m c : masked (link m c).
Proof. apply mask_idempotent. Qed.

Lemma chain_ext m m' c ids e :
  (forall x, In x ids -> m' (portCSA_TO_ADDRESS x) = m (portCSA_TO_ADDRESS x)) ->
  chain m c ids e -> chain m' c ids e.
Proof.
  revert c. induction ids as [|x rest IH]; intros c Hm Hc; [exact Hc|].
  destruct Hc as (-> & Hx & Hc). cbn [chain]. repeat split; trivial.
  apply IH.
  - intros y Hy. apply Hm. now right.
  - unfold link in *. rewrite Hm by now left. exact Hc.
Qed.

Lemma chain_app m c l1 mid l2 e :
  chain m c l1 mid -> chain m mid l2 e -> chain m c (l1 ++ l2) e.
Proof.
  revert c. induction l1 as [|x rest IH]; intros c H1 H2.
  - cbn in H1. subst. exact H2.
  - destruct H1 as (-> & Hx & H1). cbn. repeat split; trivial. now apply IH.
Qed.

Lemma chain_app_inv m c l1 l2 e :
  chain m c (l1 ++ l2) e -> exists mid, chain m c l1 mid /\ chain m mid l2 e.
Proof.
  revert c. induction l1 as [|x rest IH]; intros c H.
  - exists c. split; [reflexivity|exact H].
  - destruct H as (-> & Hx & H). destruct (IH _ H) as (mid & H1 & H2).
    exists mid. cbn. repeat split; trivial.
Qed.

Lemma chain_nonzero m c ids e : chain m c ids e -> Forall (fun x => x <> 0) ids.
Proof.
  revert c. induction ids as [|x rest IH]; intros c H; [constructor|].
  destruct H as (-> & Hx & H). constructor; [exact Hx|]. exact (IH _ H).
Qed.

Lemma chain_masked m c ids e : masked c -> chain m c ids e -> Forall masked ids.
Proof.
  revert c. induction ids as [|x rest IH]; intros c Hc H; [constructor|].
  destruct H as (-> & Hx & H). constructor; [exact Hc|].
  apply (IH _ (link_masked m x) H).
Qed.

Lemma chain_functional m c l1 l2 : chain m c l1 0 -> chain m c l2 0 -> l1 = l2.
Proof.
  revert c l2. induction l1 as [|x rest IH]; intros c l2 H1 H2.
  - cbn in H1. subst. destruct l2 as [|y r]; [reflexivity|].
    destruct H2 as (<- & Hy & _). contradiction.
  - destruct H1 as (-> & Hx & H1). destruct l2 as [|y r].
    + cbn in H2. contradiction.
    + destruct H2 as (<- & _ & H2). f_equal. exact (IH _ _ H1 H2).
Qed.

Lemma chain_NoDup m c ids : chain m c ids 0 -> NoDup ids.
Proof.
  revert c. induction ids as [|x rest IH]; intros c H; [constructor|].
  destruct H as (-> & Hx & H). constructor; [|exact (IH _ H)].
  intros Hin. apply in_split in Hin. destruct Hin as (r1 & r2 & ->).
  destruct (chain_app_inv _ _ _ _ _ H) as (mid & _ & (-> & _ & H2)).
  pose proof (chain_functional _ _ _ _ H H2) as E.
  apply (f_equal (@length Z)) in E. rewrite length_app in E. cbn in E. lia.
Qed.

(** [chain] to the terminator is what [walk] computes. *)
Lemma chain_walk m c ids : chain m c ids 0 -> walk (S (length ids)) m c = Some ids.
Proof.
  revert c. induction ids as [|x rest IH]; intros c H.
  - cbn in H. subst c. reflexivity.
  - destruct H as (-> & Hx & H).
    change (walk (S (length (x :: rest))) m x)
      with (if x =? 0 then Some []
            else match walk (S (length rest)) m (link m x) with
                 | Some l => Some (x :: l)
                 | None => None
                 end).
    destruct (Z.eqb_spec x 0) as [E|_]; [contradiction|].
    now rewrite (IH _ H).
Qed.

Lemma walk_chain fuel : forall m c ids, walk fuel m c = Some ids -> chain m c ids 0.
Proof.
  induction fuel as [|f IH]; intros m c ids H; [discriminate|].
  cbn [walk] in H. destruct (Z.eqb_spec c 0) as [->|Hc].
  - injection H as <-. reflexivity.
  - destruct (walk f m (link m c)) as [l|] eqn:E; [|discriminate].
    injection H as <-. cbn [chain]. repeat split; trivial. now apply IH.
Qed.

Lemma masked_addresses_differ x y :
  masked x -> masked y -> x <> y -> portCSA_TO_ADDRESS x <> portCSA_TO_ADDRESS y.
Proof.
  unfold masked. intros Hx Hy Hne E. apply (address_injective L) in E. congruence.
Qed.

Lemma chain_addresses_NoDup m c ids :
  masked c -> chain m c ids 0 -> NoDup (map portCSA_TO_ADDRESS ids).
Proof.
  intros Hc H. pose proof (chain_masked _ _ _ _ Hc H) as Hm.
  pose proof (chain_NoDup _ _ _ H) as Hnd. clear H Hc.
  induction ids as [|x rest IH]; [constructor|].
  inversion Hm; subst. inversion Hnd; subst.
  cbn. constructor; [|now apply IH].
  rewrite in_map_iff. intros (y & E & Hy).
  rewrite Forall_forall in H2.
  apply (masked_addresses_differ y x) in E; auto. congruence.
Qed.

Lemma masked_nonzero_address x : masked x -> x <> 0 -> portCSA_TO_ADDRESS x <> NULL.
Proof.
  unfold masked. intros Hx Hne E. apply (address_null_iff L) in E. congruence.
Qed.

Lemma set_mem_same (s : state) : set_mem (mem s) s = s.
Proof. destruct s. reflexivity. Qed.

Lemma strip_links_other m ids a :
  ~ In a (map portCSA_TO_ADDRESS (removelast ids)) -> strip_links m ids a = m a.
Proof.
  revert m. induction ids as [|x [|y r] IH]; intros m Ha; try reflexivity.
  change (strip_links m (x :: y :: r))
    with (strip_links (upd m (portCSA_TO_ADDRESS x)
                           (Z.land (m (portCSA_TO_ADDRESS x)) portCSA_FCX_MASK)) (y :: r)).
  change (removelast (x :: y :: r)) with (x :: removelast (y :: r)) in Ha.
  cbn [map In] in Ha. rewrite IH by tauto. apply upd_other. intros ->. tauto.
Qed.

Lemma in_removelast (x : Z) l : In x (removelast l) -> In x l.
Proof.
  induction l as [|y [|z r] IH]; cbn [removelast]; intros H; try contradiction.
  destruct H as [->|H]; [now left|right; exact (IH H)].
Qed.

Lemma strip_links_at m ids x :
  NoDup (map portCSA_TO_ADDRESS ids) -> In x (removelast ids) ->
  strip_links m ids (portCSA_TO_ADDRESS x)
  = Z.land (m (portCSA_TO_ADDRESS x)) portCSA_FCX_MASK.
Proof.
  revert m. induction ids as [|y [|z r] IH]; intros m Hnd Hx; try contradiction.
  change (strip_links m (y :: z :: r))
    with (strip_links (upd m (portCSA_TO_ADDRESS y)
                           (Z.land (m (portCSA_TO_ADDRESS y)) portCSA_FCX_MASK)) (z :: r)).
  change (removelast (y :: z :: r)) with (y :: removelast (z :: r)) in Hx.
  change (map portCSA_TO_ADDRESS (y :: z :: r))
    with (portCSA_TO_ADDRESS y :: map portCSA_TO_ADDRESS (z :: r)) in Hnd.
  apply NoDup_cons_iff in Hnd. destruct Hnd as [Hy Hnd'].
  destruct Hx as [->|Hx].
  - rewrite strip_links_other; [apply upd_same|].
    intros Hin. apply Hy. rewrite in_map_iff in Hin |- *.
    destruct Hin as (w & E & Hw). exists w. split; [exact E|].
    now apply in_removelast.
  - rewrite IH by assumption. rewrite upd_other; [reflexivity|].
    intros E. apply Hy. rewrite <- E. apply in_map. now apply in_removelast.
Qed.

Lemma last_In (l : list Z) d : l <> [] -> In (last l d) l.
Proof.
  induction l as [|y [|z r] IH]; intros Hne; [congruence|now left|].
  right. apply IH. discriminate.
Qed.

Lemma last_not_in_removelast (l : list Z) d :
  NoDup l -> l <> [] -> ~ In (last l d) (removelast l).
Proof.
  induction l as [|y [|z r] IH]; intros Hnd Hne; try (cbn; tauto).
  change (removelast (y :: z :: r)) with (y :: removelast (z :: r)).
  change (last (y :: z :: r) d) with (last (z :: r) d).
  inversion Hnd as [|? ? Hy Hnd']; subst. intros [E|Hin].
  - apply Hy. rewrite E. apply last_In. discriminate.
  - apply IH in Hin; trivial. discriminate.
Qed.

(** ** vPortReclaimCSA *)

Lemma walked_single x s : walked [x] s = s.
Proof. destruct s. reflexivity. Qed.

Lemma walked_cons x y r s :
  walked (y :: r)
    (log (EvStore (portCSA_TO_ADDRESS x)
                  (Z.land (mem s (portCSA_TO_ADDRESS x)) portCSA_FCX_MASK) (IE s))
       (set_mem (upd (mem s) (portCSA_TO_ADDRESS x)
                     (Z.land (mem s (portCSA_TO_ADDRESS x)) portCSA_FCX_MASK)) s))
  = walked (x :: y :: r) s.
Proof.
  unfold walked.
  change (strip_links (mem s) (x :: y :: r))
    with (strip_links (upd (mem s) (portCSA_TO_ADDRESS x)
            (Z.land (mem s (portCSA_TO_ADDRESS x)) portCSA_FCX_MASK)) (y :: r)).
  change (strip_events (mem s) (x :: y :: r) (IE s))
    with (strip_events (upd (mem s) (portCSA_TO_ADDRESS x)
            (Z.land (mem s (portCSA_TO_ADDRESS x)) portCSA_FCX_MASK)) (y :: r) (IE s)
          ++ [EvStore (portCSA_TO_ADDRESS x)
                (Z.land (mem s (portCSA_TO_ADDRESS x)) portCSA_FCX_MASK) (IE s)]).
  unfold logs, set_mem, log. proj. rewrite <- app_assoc. reflexivity.
Qed.

Lemma reclaim_walk_spec rest : forall x s fuel,
  chain (mem s) x (x :: rest) 0 ->
  NoDup (map portCSA_TO_ADDRESS (x :: rest)) ->
  reclaim_walk fuel x (portCSA_TO_ADDRESS x) s
  = if (length rest <? fuel)%nat
    then Done (last (x :: rest) 0) (walked (x :: rest) s)
    else OutOfFuel.
Proof.
  induction rest as [|y r IH]; intros x s fuel Hc Hnd.
  - destruct fuel as [|f]; [reflexivity|].
    destruct Hc as (_ & Hx & Hc). cbn [chain] in Hc. unfold link in Hc.
    cbn [reclaim_walk]. step. rewrite at_index_0, Hc.
    change (0 =? 0) with true. proj. cbn [length Nat.ltb Nat.leb last].
    rewrite walked_single. reflexivity.
  - destruct fuel as [|f]; [reflexivity|].
    destruct Hc as (_ & Hx & Hy & Hny & Hc). unfold link in Hy.
    change (map portCSA_TO_ADDRESS (x :: y :: r))
      with (portCSA_TO_ADDRESS x :: map portCSA_TO_ADDRESS (y :: r)) in Hnd.
    apply NoDup_cons_iff in Hnd. destruct Hnd as [Hx' Hnd].
    cbn [reclaim_walk]. step. rewrite at_index_0, Hy.
    destruct (Z.eqb_spec y 0) as [E|_]; [contradiction|]. proj.
    do 2 step. rewrite !at_index_0, upd_same.
    rewrite IH.
    + change (length (y :: r) <? S f)%nat with (length r <? f)%nat.
      destruct (length r <? f)%nat; [|reflexivity].
      change (last (x :: y :: r) 0) with (last (y :: r) 0).
      rewrite <- (walked_cons x y r s), Hy. reflexivity.
    + proj. apply chain_ext with (m := mem s).
      * intros z Hz. apply upd_other. intros E. apply Hx'. rewrite <- E.
        now apply in_map.
      * repeat split; trivial.
    + exact Hnd.
Qed.

Lemma chain_spliced ids : forall m c v,
  ids <> [] -> chain m c ids 0 -> NoDup (map portCSA_TO_ADDRESS ids) ->
  chain (upd (strip_links m ids) (portCSA_TO_ADDRESS (last ids 0)) v) c ids
        (Z.land v portCSA_FCX_MASK).
Proof.
  induction ids as [|x [|y r] IH]; intros m c v Hne Hc Hnd; [congruence| |].
  - destruct Hc as (-> & Hx & _). cbn [chain strip_links last].
    repeat split; trivial. unfold link. now rewrite upd_same.
  - destruct Hc as (-> & Hx & Hy & Hny & Hc).
    change (map portCSA_TO_ADDRESS (x :: y :: r))
      with (portCSA_TO_ADDRESS x :: map portCSA_TO_ADDRESS (y :: r)) in Hnd.
    apply NoDup_cons_iff in Hnd. destruct Hnd as [Hx' Hnd].
    change (last (x :: y :: r) 0) with (last (y :: r) 0).
    change (strip_links m (x :: y :: r))
      with (strip_links (upd m (portCSA_TO_ADDRESS x)
              (Z.land (m (portCSA_TO_ADDRESS x)) portCSA_FCX_MASK)) (y :: r)).
    set (m1 := upd m (portCSA_TO_ADDRESS x)
                   (Z.land (m (portCSA_TO_ADDRESS x)) portCSA_FCX_MASK)).
    assert (Hc1 : chain m1 y (y :: r) 0).
    { apply chain_ext with (m := m).
      - intros z Hz. apply upd_other. intros E. apply Hx'. rewrite <- E.
        now apply in_map.
      - repeat split; trivial. }
    split; [reflexivity|]. split; [exact Hx|].
    assert (El : link (upd (strip_links m1 (y :: r))
                           (portCSA_TO_ADDRESS (last (y :: r) 0)) v) x = y).
    { unfold link. rewrite upd_other.
      - rewrite strip_links_other.
        + unfold m1. rewrite upd_same. rewrite (mask_idempotent). exact Hy.
        + intros Hin. apply Hx'. rewrite in_map_iff in Hin |- *.
          destruct Hin as (w & E & Hw). exists w. split; [exact E|].
          now apply in_removelast.
      - intros E. apply Hx'. rewrite E. apply in_map. apply last_In. discriminate. }
    rewrite El. apply IH; trivial. discriminate.
Qed.

Lemma vPortReclaimCSA_spec fuel pxTCB ids s :
  task_chain s pxTCB ids -> ids <> [] ->
  vPortReclaimCSA fuel pxTCB s
  = if (length ids <=? fuel)%nat then Done tt (reclaimed ids s) else OutOfFuel.
Proof.
  unfold task_chain. intros Hc Hne.
  assert (Hnd : NoDup (map portCSA_TO_ADDRESS ids))
    by (eapply chain_addresses_NoDup; [apply mask_idempotent|exact Hc]).
  destruct ids as [|x rest]; [congruence|].
  pose proof Hc as (Hx & _). rewrite Hx in Hc.
  unfold vPortReclaimCSA. step. rewrite at_index_0, Hx.
  unfold bind at 1. rewrite (reclaim_walk_spec rest) by assumption.
  change (length (x :: rest) <=? fuel)%nat with (length rest <? fuel)%nat.
  destruct (length rest <? fuel)%nat; [|reflexivity].
  repeat step. unfold TriCore__enable, walked. cbv beta. reached.
  rewrite at_index_0. reflexivity.
Qed.

Lemma reclaimed_mem_other ids s a :
  ids <> [] ->
  ~ In a (map portCSA_TO_ADDRESS ids) -> mem (reclaimed ids s) a = mem s a.
Proof.
  intros Hne Ha. unfold reclaimed. proj. rewrite upd_other.
  - apply strip_links_other. intros Hin. apply Ha.
    rewrite in_map_iff in Hin |- *. destruct Hin as (w & E & Hw).
    exists w. split; [exact E|]. now apply in_removelast.
  - intros ->. apply Ha. apply in_map. now apply last_In.
Qed.

Lemma reclaimed_pool s pxTCB ids P :
  task_chain s pxTCB ids -> ids <> [] ->
  free_pool s P -> (forall x, In x ids -> ~ In x P) ->
  free_pool (reclaimed ids s) (ids ++ P).
Proof.
  unfold task_chain, free_pool. intros Hc Hne HP Hdis.
  assert (Hnd : NoDup (map portCSA_TO_ADDRESS ids))
    by (eapply chain_addresses_NoDup; [apply mask_idempotent|exact Hc]).
  assert (Hmi : Forall masked ids)
    by (eapply chain_masked; [apply mask_idempotent|exact Hc]).
  assert (HmP : Forall masked P)
    by (eapply chain_masked; [apply mask_idempotent|exact HP]).
  rewrite Forall_forall in Hmi, HmP.
  assert (Eh : Z.land (FCX (reclaimed ids s)) portCSA_FCX_MASK
               = Z.land (mem s pxTCB) portCSA_FCX_MASK).
  { unfold reclaimed. proj. destruct ids as [|x r]; [congruence|].
    destruct Hc as (<- & _). cbn [hd]. apply mask_idempotent. }
  rewrite Eh. apply chain_app with (mid := Z.land (FCX s) portCSA_FCX_MASK).
  - unfold reclaimed. proj. now apply chain_spliced.
  - apply chain_ext with (m := mem s); [|exact HP].
    intros p Hp. apply reclaimed_mem_other; [exact Hne|].
    rewrite in_map_iff. intros (w & E & Hw).
    apply (masked_addresses_differ w p) in E; auto.
    intros ->. exact (Hdis _ Hw Hp).
Qed.

(** The stores of the walk, record by record. *)
Lemma strip_events_map ids : forall m ie,
  NoDup (map portCSA_TO_ADDRESS ids) ->
  strip_events m ids ie
  = map (fun x => EvStore (portCSA_TO_ADDRESS x)
                          (Z.land (m (portCSA_TO_ADDRESS x)) portCSA_FCX_MASK) ie)
        (rev (removelast ids)).
Proof.
  induction ids as [|x [|y r] IH]; intros m ie Hnd; try reflexivity.
  change (strip_events m (x :: y :: r) ie)
    with (strip_events (upd m (portCSA_TO_ADDRESS x)
            (Z.land (m (portCSA_TO_ADDRESS x)) portCSA_FCX_MASK)) (y :: r) ie
          ++ [EvStore (portCSA_TO_ADDRESS x)
                (Z.land (m (portCSA_TO_ADDRESS x)) portCSA_FCX_MASK) ie]).
  change (removelast (x :: y :: r)) with (x :: removelast (y :: r)).
  change (map portCSA_TO_ADDRESS (x :: y :: r))
    with (portCSA_TO_ADDRESS x :: map portCSA_TO_ADDRESS (y :: r)) in Hnd.
  apply NoDup_cons_iff in Hnd. destruct Hnd as [Hx Hnd].
  cbn [rev]. rewrite map_app, IH by exact Hnd. cbn [map]. f_equal.
  apply map_ext_in. intros z Hz. rewrite upd_other; [reflexivity|].
  intros E. apply Hx. rewrite <- E. apply in_map.
  apply in_removelast. now apply in_rev.
Qed.

(** C2. For a terminated task whose saved-context handle names a chain of
    N+2 records ending in the terminator, [vPortReclaimCSA] returns (given
    one unit of fuel per record). Walking the chain, it stores into the link
    word of every record but the tail that word with its tag bits stripped,
    in chain order, interrupts being as they were on entry. Then, with
    interrupts disabled, it reads the free-list head register, stores the
    value read into the tail's link word and sets the head register to the
    chain's original head, these three in this order and nothing else in
    between; interrupts are enabled afterwards. Following link words from
    the new head visits all N+2 records and then continues at the old head,
    so the whole chain is in front of the Free Pool. *)
Theorem vPortReclaimCSA_returns_whole_chain
  (N fuel : nat) (pxTCB : Z) (ids : list Z) (s : state) :
  task_chain s pxTCB ids ->
  length ids = (N + 2)%nat ->
  (N + 2 <= fuel)%nat ->
  exists s',
    vPortReclaimCSA fuel pxTCB s = Done tt s'
    /\ (forall x, In x (removelast ids) ->
          mem s' (portCSA_TO_ADDRESS x)
          = Z.land (mem s (portCSA_TO_ADDRESS x)) portCSA_FCX_MASK)
    /\ mem s' (portCSA_TO_ADDRESS (last ids 0)) = FCX s
    /\ FCX s' = Z.land (mem s pxTCB) portCSA_FCX_MASK
    /\ trace s'
       = EvMtcr TRICORE_CPU_FCX (Z.land (mem s pxTCB) portCSA_FCX_MASK) false
         :: EvStore (portCSA_TO_ADDRESS (last ids 0)) (FCX s) false
         :: EvMfcr TRICORE_CPU_FCX (FCX s) false
         :: map (fun x => EvStore (portCSA_TO_ADDRESS x)
                            (Z.land (mem s (portCSA_TO_ADDRESS x)) portCSA_FCX_MASK)
                            (IE s))
                (rev (removelast ids))
            ++ trace s
    /\ IE s' = true
    /\ chain (mem s') (FCX s') ids (Z.land (FCX s) portCSA_FCX_MASK)
    /\ (forall P, free_pool s P -> (forall x, In x ids -> ~ In x P) ->
          free_pool s' (ids ++ P)).
Proof.
  intros Hc Hlen Hfuel.
  assert (Hne : ids <> []) by (intros ->; cbn in Hlen; lia).
  assert (Hnd : NoDup (map portCSA_TO_ADDRESS ids))
    by (eapply chain_addresses_NoDup; [apply mask_idempotent|exact Hc]).
  assert (Hmi : Forall masked ids)
    by (eapply chain_masked; [apply mask_idempotent|exact Hc]).
  exists (reclaimed ids s).
  rewrite (vPortReclaimCSA_spec fuel pxTCB ids s Hc Hne).
  replace (length ids <=? fuel)%nat with true
    by (symmetry; apply Nat.leb_le; lia).
  assert (Eh : hd 0 ids = Z.land (mem s pxTCB) portCSA_FCX_MASK).
  { destruct ids as [|x r]; [congruence|]. destruct Hc as (<- & _). reflexivity. }
  split; [reflexivity|].
  split.
  { intros x Hx. unfold reclaimed. proj. rewrite upd_other.
    - now apply strip_links_at.
    - rewrite Forall_forall in Hmi.
      apply masked_addresses_differ.
      + apply Hmi. now apply in_removelast.
      + apply Hmi. now apply last_In.
      + intros ->. revert Hx. apply last_not_in_removelast; trivial.
        eapply chain_NoDup. exact Hc. }
  split; [unfold reclaimed; proj; apply upd_same|].
  split; [unfold reclaimed; proj; exact Eh|].
  split.
  { unfold reclaimed. proj. rewrite Eh, (strip_events_map ids) by exact Hnd.
    reflexivity. }
  split; [unfold reclaimed; proj; apply IE_enable|].
  split.
  { unfold reclaimed. proj. rewrite Eh. now apply chain_spliced. }
  intros P HP Hdis. now apply (reclaimed_pool s pxTCB).
Qed.

(** ** A context that was built and never run *)

Lemma outside_spec ids a :
  outside ids a = true <->
  forall c, In c ids -> a < portCSA_TO_ADDRESS c \/ portCSA_TO_ADDRESS c + 64 <= a.
Proof.
  unfold outside. rewrite forallb_forall. split; intros H c Hc; specialize (H c Hc).
  - apply orb_true_iff in H. destruct H as [H|H]; [left|right].
    + now apply Z.ltb_lt.
    + apply Z.leb_le in H. exact H.
  - apply orb_true_iff. destruct H as [H|H]; [left|right].
    + now apply Z.ltb_lt.
    + apply Z.leb_le. exact H.
Qed.

Lemma initial_context_other m lo up t c p a :
  (a < lo \/ lo + 64 <= a) -> (a < up \/ up + 64 <= a) ->
  initial_context m lo up t c p a = m a.
Proof.
  intros Hlo Hup. unfold initial_context.
  rewrite !upd_other by (unfold at_index, sizeof_unsigned_long; lia).
  rewrite zero_words_outside
    by (intros j Hj; unfold at_index, sizeof_unsigned_long; lia).
  rewrite !upd_other by (unfold at_index, sizeof_unsigned_long; lia).
  apply zero_words_outside.
  intros j Hj; unfold at_index, sizeof_unsigned_long; lia.
Qed.

Lemma initial_context_lower m lo up t c p :
  initial_context m lo up t c p lo
  = Z.lor portINITIAL_PCXI_UPPER_CONTEXT_WORD (portADDRESS_TO_CSA up).
Proof.
  unfold initial_context. rewrite at_index_0. apply upd_same.
Qed.

Lemma initial_context_upper m lo up t c p :
  lo + 64 <= up \/ up + 64 <= lo ->
  initial_context m lo up t c p up = 0.
Proof.
  intros Hap. unfold initial_context.
  rewrite !upd_other by (unfold at_index, sizeof_unsigned_long; lia).
  rewrite zero_words_outside
    by (intros j Hj; unfold at_index, sizeof_unsigned_long; lia).
  rewrite !upd_other by (unfold at_index, sizeof_unsigned_long; lia).
  rewrite <- (at_index_0 up) at 2. apply zero_words_inside. lia.
Qed.

Lemma tag_outside_mask x :
  Z.land (Z.lor portINITIAL_PCXI_UPPER_CONTEXT_WORD x) portCSA_FCX_MASK
  = Z.land x portCSA_FCX_MASK.
Proof. rewrite Z.land_lor_distr_l. reflexivity. Qed.

(** What a pool with two records at its head looks like to
    [pxPortInitialiseStack], and what the build leaves. *)
Lemma pool_head s c0 c1 rest :
  free_pool s (c0 :: c1 :: rest) ->
  lower_of s = portCSA_TO_ADDRESS c0 /\ upper_of s = portCSA_TO_ADDRESS c1
  /\ masked c0 /\ masked c1 /\ c0 <> c1
  /\ lower_of s <> NULL /\ upper_of s <> NULL
  /\ (lower_of s + 64 <= upper_of s \/ upper_of s + 64 <= lower_of s).
Proof.
  intros HP. pose proof HP as Hc. unfold free_pool in Hc.
  pose proof (chain_masked _ _ _ _ (mask_idempotent _) Hc) as Hm.
  pose proof (chain_NoDup _ _ _ Hc) as Hnd.
  destruct Hc as (E0 & H0 & E1 & H1 & _).
  inversion Hm as [|? ? M0 Hm']; subst. inversion Hm' as [|? ? M1 _]; subst.
  assert (El : lower_of s = portCSA_TO_ADDRESS (Z.land (FCX s) portCSA_FCX_MASK))
    by (unfold lower_of; now rewrite (csa_low20 L)).
  assert (Eu : upper_of s
               = portCSA_TO_ADDRESS (link (mem s) (Z.land (FCX s) portCSA_FCX_MASK))).
  { unfold upper_of, link. rewrite (csa_low20 L). now rewrite <- El. }
  assert (Hne : Z.land (FCX s) portCSA_FCX_MASK
                <> link (mem s) (Z.land (FCX s) portCSA_FCX_MASK)).
  { inversion Hnd as [|? ? Hin _]; subst. intros E. apply Hin. left. now symmetry. }
  rewrite El, Eu.
  repeat split; trivial.
  - now apply masked_nonzero_address.
  - now apply masked_nonzero_address.
  - apply (records_apart L). now apply masked_addresses_differ.
Qed.

Lemma built_pool t c p s c0 c1 rest :
  free_pool s (c0 :: c1 :: rest) ->
  free_pool (built t c p s) rest
  /\ chain (mem (built t c p s)) c0 [c0; c1] 0
  /\ portADDRESS_TO_CSA (lower_of s) = c0
  /\ (forall a, outside [c0; c1] a = true -> mem (built t c p s) a = mem s a).
Proof.
  intros HP. destruct (pool_head _ _ _ _ HP) as (El & Eu & M0 & M1 & Hne & Hl & Hu & Hap).
  pose proof HP as Hc. unfold free_pool in Hc.
  pose proof (chain_masked _ _ _ _ (mask_idempotent _) Hc) as Hm.
  pose proof (chain_NoDup _ _ _ Hc) as Hnd.
  destruct Hc as (E0 & H0 & E1 & H1 & Hc).
  rewrite Forall_forall in Hm.
  assert (Hout : forall a, outside [c0; c1] a = true ->
                           mem (built t c p s) a = mem s a).
  { intros a Ha. rewrite outside_spec in Ha. unfold built. proj.
    apply initial_context_other.
    - rewrite El. apply Ha. now left.
    - rewrite Eu. apply Ha. right. now left. }
  assert (Hrest : forall x, In x rest -> outside [c0; c1] (portCSA_TO_ADDRESS x) = true).
  { intros x Hx. apply outside_spec. intros c' Hc'.
    assert (Hd : portCSA_TO_ADDRESS x <> portCSA_TO_ADDRESS c').
    { apply masked_addresses_differ.
      - apply Hm. now do 2 right.
      - apply Hm. destruct Hc' as [<-|[<-|[]]]; [now left|right; now left].
      - intros ->. inversion Hnd as [|? ? N0 Hnd']; subst.
        inversion Hnd' as [|? ? N1 _]; subst.
        destruct Hc' as [<-|[<-|[]]]; [apply N0; now right|now apply N1]. }
    destruct (records_apart L _ _ Hd); lia. }
  split; [|split; [|split]]; trivial.
  - unfold free_pool. apply chain_ext with (m := mem s).
    + intros x Hx. apply Hout. now apply Hrest.
    + unfold built. proj. rewrite Eu. exact Hc.
  - cbn [chain]. split; [reflexivity|]. split; [congruence|].
    assert (E01 : link (mem (built t c p s)) c0 = c1).
    { unfold link, built. proj. rewrite <- El, initial_context_lower.
      rewrite tag_outside_mask, Eu, (csa_round_trip L).
      rewrite mask_idempotent. exact M1. }
    rewrite E01. split; [reflexivity|]. split; [exact H1|].
    unfold link, built. proj. rewrite <- Eu, initial_context_upper by exact Hap.
    reflexivity.
  - rewrite El, (csa_round_trip L). exact M0.
Qed.

Lemma outside_not_link ids a x :
  outside ids a = true -> In x ids -> portCSA_TO_ADDRESS x <> a.
Proof.
  intros Ha Hx. rewrite outside_spec in Ha. specialize (Ha x Hx). lia.
Qed.


Lemma create_task_success pxTCB t c p s :
  lower_of s <> NULL -> upper_of s <> NULL ->
  create_task pxTCB t c p s = Done tt (created pxTCB t c p s).
Proof.
  intros Hl Hu. unfold create_task.
  erewrite bind_eq by (apply pxPortInitialiseStack_success; assumption).
  unfold store, created, IE.
  change (ICR (built t c p s)) with (Z.setbit (ICR s) ie_bit).
  rewrite IE_enable. reflexivity.
Qed.

Lemma created_pool pxTCB t c p s c0 c1 rest :
  free_pool s (c0 :: c1 :: rest) ->
  outside (c0 :: c1 :: rest) pxTCB = true ->
  free_pool (created pxTCB t c p s) rest
  /\ task_chain (created pxTCB t c p s) pxTCB [c0; c1]
  /\ (forall a, outside [c0; c1] a = true -> a <> pxTCB ->
        mem (created pxTCB t c p s) a = mem s a).
Proof.
  intros HP Hout.
  destruct (built_pool t c p s c0 c1 rest HP) as (Hrest & Hch & Eh & Hmem).
  assert (Hw : forall ids m v, incl ids (c0 :: c1 :: rest) ->
             forall x, In x ids ->
             upd m pxTCB v (portCSA_TO_ADDRESS x) = m (portCSA_TO_ADDRESS x)).
  { intros ids m v Hi x Hx. apply upd_other.
    apply (outside_not_link (c0 :: c1 :: rest)); auto. }
  split; [|split].
  - unfold free_pool, created. proj. rewrite at_index_0.
    apply chain_ext with (m := mem (built t c p s)); [|exact Hrest].
    apply Hw. intros x Hx. now do 2 right.
  - unfold task_chain, created. proj. rewrite at_index_0.
    rewrite upd_same, Eh.
    assert (M0 : masked c0) by (destruct (pool_head _ _ _ _ HP) as (_ & _ & M0 & _); exact M0).
    rewrite M0.
    apply chain_ext with (m := mem (built t c p s)); [|exact Hch].
    apply Hw. intros x [<-|[<-|[]]]; [now left|right; now left].
  - intros a Ha Hne. unfold created. proj. rewrite upd_other.
    + now apply Hmem.
    + now rewrite at_index_0.
Qed.

(** C6. From any pool with at least two free records, building a context
    (the kernel keeping the returned handle in the first word of the
    control block, which lies outside the records of the pool) takes
    exactly the two head records out of the pool, and reclaiming that handle
    at once, the task never having run, puts exactly these two back: the
    pool has its original records, in their original order. *)
Theorem build_then_reclaim_restores_pool
  (pxTCB pxTopOfStack pxCode pvParameters : Z) (fuel : nat)
  (s : state) (c0 c1 : Z) (rest : list Z) :
  free_pool s (c0 :: c1 :: rest) ->
  outside (c0 :: c1 :: rest) pxTCB = true ->
  (2 <= fuel)%nat ->
  exists s1 s2,
    create_task pxTCB pxTopOfStack pxCode pvParameters s = Done tt s1
    /\ free_pool s1 rest
    /\ task_chain s1 pxTCB [c0; c1]
    /\ vPortReclaimCSA fuel pxTCB s1 = Done tt s2
    /\ free_pool s2 (c0 :: c1 :: rest).
Proof.
  intros HP Hout Hfuel.
  destruct (pool_head _ _ _ _ HP) as (_ & _ & _ & _ & _ & Hl & Hu & _).
  destruct (created_pool pxTCB pxTopOfStack pxCode pvParameters s c0 c1 rest HP Hout)
    as (Hrest & Hch & _).
  set (s1 := created pxTCB pxTopOfStack pxCode pvParameters s) in *.
  exists s1, (reclaimed [c0; c1] s1).
  split; [now apply create_task_success|].
  split; [exact Hrest|]. split; [exact Hch|].
  split.
  - rewrite (vPortReclaimCSA_spec fuel pxTCB [c0; c1] s1 Hch) by discriminate.
    replace (length [c0; c1] <=? fuel)%nat with true
      by (symmetry; apply Nat.leb_le; cbn; lia).
    reflexivity.
  - apply (reclaimed_pool s1 pxTCB [c0; c1] rest Hch); [discriminate|exact Hrest|].
    pose proof (chain_NoDup _ _ _ HP) as Hnd.
    inversion Hnd as [|? ? N0 Hnd']; subst. inversion Hnd' as [|? ? N1 _]; subst.
    intros x [<-|[<-|[]]] Hin; [apply N0; now right|now apply N1].
Qed.

(** ** Exhaustion *)

Lemma short_pool_depleted s P :
  free_pool s P -> (length P < 2)%nat ->
  lower_of s = NULL \/ upper_of s = NULL.
Proof.
  unfold free_pool. intros HP Hlen.
  destruct P as [|c0 [|c1 r]]; [| |cbn in Hlen; lia].
  - left. apply (address_null_iff L). exact HP.
  - right. destruct HP as (E0 & H0 & E1). cbn [chain] in E1.
    apply (address_null_iff L). unfold upper_of, lower_of.
    unfold link in E1. rewrite <- E0, (csa_low20 L) in E1. exact E1.
Qed.

Lemma two_free_b_false s :
  lower_of s = NULL \/ upper_of s = NULL -> two_free_b s = false.
Proof.
  unfold two_free_b. intros [E|E]; rewrite E; cbn [Z.eqb NULL negb andb].
  - reflexivity.
  - apply andb_false_r.
Qed.

(** The end-to-end scenario of the specification, as far as it is C: from a
    pool of exactly four free records two builds succeed, leaving the pool
    empty, and a third build takes the branch of line 159, where it executes
    SVLCX before it has written anything. *)
Lemma four_records_two_builds t1 c1 p1 t2 c2 p2 t3 c3 p3 s r0 r1 r2 r3 :
  free_pool s [r0; r1; r2; r3] ->
  exists s1 s2 k,
    pxPortInitialiseStack t1 c1 p1 s = Done r0 s1
    /\ pxPortInitialiseStack t2 c2 p2 s1 = Done r2 s2
    /\ free_pool s2 []
    /\ two_free_b s2 = false
    /\ pxPortInitialiseStack t3 c3 p3 s2 = bind TriCore__svlcx k (exhausted_entry s2).
Proof.
  intros HP.
  destruct (pool_head _ _ _ _ HP) as (_ & _ & _ & _ & _ & Hl & Hu & _).
  destruct (built_pool t1 c1 p1 s _ _ _ HP) as (HP1 & _ & E1 & _).
  destruct (pool_head _ _ _ _ HP1) as (_ & _ & _ & _ & _ & Hl1 & Hu1 & _).
  destruct (built_pool t2 c2 p2 _ _ _ _ HP1) as (HP2 & _ & E2 & _).
  assert (Hd : lower_of (built t2 c2 p2 (built t1 c1 p1 s)) = NULL
               \/ upper_of (built t2 c2 p2 (built t1 c1 p1 s)) = NULL)
    by (apply (short_pool_depleted _ [] HP2); cbn; lia).
  destruct (pxPortInitialiseStack_exhausted t3 c3 p3 _ Hd) as (k & Hk).
  exists (built t1 c1 p1 s), (built t2 c2 p2 (built t1 c1 p1 s)), k.
  split; [rewrite <- E1; now apply pxPortInitialiseStack_success|].
  split; [rewrite <- E2; now apply pxPortInitialiseStack_success|].
  split; [exact HP2|]. split; [now apply two_free_b_false|exact Hk].
Qed.

(** ** The allocator's invariant *)
















End Chains.


(** ** The switch engine *)

Lemma prvYield_spec s : prvYield s = Done tt (yielded s).
Proof.
  unfold prvYield, yielded. do 4 step.
  unfold store_pxCurrentTCB, load_pxCurrentTCB, vTaskSwitchContext.
  do 3 step. repeat step. unfold TriCore__enable. cbv beta.
  rewrite !at_index_0. reached. reflexivity.
Qed.

Lemma yielded_installs s :
  mem (yielded s) (portCSA_TO_ADDRESS (PCXI (yielded s)))
  = mem (yielded s) (pxCurrentTCB (yielded s)).
Proof.
  unfold yielded. proj. rewrite upd_same. unfold upd at 2.
  destruct (Z.eqb_spec (snd (task_selection (kernel s))) (portCSA_TO_ADDRESS (PCXI s)))
    as [->|_]; reflexivity.
Qed.

(** C3 (as the code has it). [prvYield] always returns. It reads the
    context register and saves, into the first word of the control block of
    the task that was running, the link word (word 0) of the record that the
    register identifies; then it calls the task-selection policy, with
    interrupts disabled; finally it writes the saved-context handle of the
    task selected into that same link word. The register is read, the two
    stores are made and the policy is called in this order, all with
    interrupts disabled. The context register itself is not written: it has
    the value it had, and nothing else of the core changes but the
    interrupt-enable bit of the interrupt control register, set on exit. *)
Theorem prvYield_saves_selects_restores (s : state) :
  exists s',
    prvYield s = Done tt s'
    /\ (let a := portCSA_TO_ADDRESS (PCXI s) in
        let saved := upd (mem s) (pxCurrentTCB s) (mem s a) in
        let selected := snd (task_selection (kernel s)) in
        pxCurrentTCB s' = selected
        /\ kernel s' = fst (task_selection (kernel s))
        /\ mem s' = upd saved a (saved selected)
        /\ mem s' a = mem s' selected
        /\ trace s' = EvStore a (saved selected) false
                      :: EvSwitchContext false selected
                      :: EvStore (pxCurrentTCB s) (mem s a) false
                      :: EvMfcr TRICORE_CPU_PCXI (PCXI s) false :: trace s)
    /\ PCXI s' = PCXI s /\ FCX s' = FCX s /\ ICR s' = Z.setbit (ICR s) ie_bit
    /\ PSW s' = PSW s /\ SYSCON s' = SYSCON s /\ IE s' = true.
Proof.
  exists (yielded s). split; [apply prvYield_spec|].
  split; [|repeat split; apply IE_enable].
  cbv zeta. repeat split. apply (yielded_installs s).
Qed.

(** ** Interleaved switches *)

Lemma vTrapYield_spec i s :
  vTrapYield i s
  = if i =? portSYSCALL_TASK_YIELD then Done tt (yielded s)
    else Trapped AssertionFailed s.
Proof.
  unfold vTrapYield. destruct (i =? portSYSCALL_TASK_YIELD).
  - apply prvYield_spec.
  - reflexivity.
Qed.

Lemma uxPortSetInterruptMaskFromISR_spec s :
  uxPortSetInterruptMaskFromISR s
  = Done (Z.land (Z.clearbit (ICR s) ie_bit) portCCPN_MASK) (mask_raised s).
Proof.
  unfold uxPortSetInterruptMaskFromISR, mask_raised. repeat step.
  fold (raised_ICR (Z.clearbit (ICR s) ie_bit)). reached. reflexivity.
Qed.

Lemma portCLEAR_INTERRUPT_MASK_FROM_ISR_spec saved s :
  portCLEAR_INTERRUPT_MASK_FROM_ISR saved s = Done tt (mask_cleared saved s).
Proof.
  unfold portCLEAR_INTERRUPT_MASK_FROM_ISR, mask_cleared. repeat step.
  unfold TriCore__enable. cbv beta.
  fold (restored_ICR (Z.clearbit (ICR s) ie_bit) saved). reached. reflexivity.
Qed.

Lemma vPortSystemTickHandler_spec s :
  vPortSystemTickHandler s
  = Done tt (if negb (snd (tick_accounting (kernel s)) =? pdFALSE)
             then yielded (tick_accounted s)
             else tick_accounted s).
Proof.
  unfold vPortSystemTickHandler, portSET_INTERRUPT_MASK_FROM_ISR.
  erewrite bind_eq by apply uxPortSetInterruptMaskFromISR_spec.
  unfold xTaskIncrementTick. erewrite bind_eq by reflexivity. cbv beta.
  erewrite bind_eq by apply portCLEAR_INTERRUPT_MASK_FROM_ISR_spec.
  change (kernel (mask_raised s)) with (kernel s).
  fold (tick_accounted s).
  destruct (snd (tick_accounting (kernel s)) =? pdFALSE); cbn [negb].
  - reflexivity.
  - apply prvYield_spec.
Qed.

Lemma yielded_completed s : switch_completed (yielded s).
Proof. split; [reflexivity|apply yielded_installs]. Qed.

Lemma yielded_consistent s : switch_consistent (yielded s).
Proof. intros t Ht. cbn in Ht. now injection Ht. Qed.

Lemma tick_accounted_consistent s :
  switch_consistent s -> switch_consistent (tick_accounted s).
Proof. intros H t Ht. apply H. exact Ht. Qed.

Lemma vPortYield_inv s s' :
  vPortYield s = Done tt s' ->
  exists sa,
    TriCore__svlcx s = Done tt sa /\ TriCore__rslcx (yielded sa) = Done tt s'.
Proof.
  unfold vPortYield, vPortSystemTaskHandler. unfold bind at 1.
  destruct (TriCore__svlcx s) as [[] sa| |] eqn:E; try discriminate.
  rewrite (bind_eq _ _ _ _ _ (prvYield_spec sa)).
  intros H. exists sa. split; [reflexivity|exact H].
Qed.

Lemma switch_step_consistent (HL : HardwareLaws HW) o s s' :
  switch_consistent s -> switch_step o s = Done tt s' -> switch_consistent s'.
Proof.
  intros Hs Hrun. destruct o as [|i| |h]; cbn [switch_step] in Hrun.
  - apply vPortYield_inv in Hrun. destruct Hrun as (sa & _ & Hr).
    destruct (rslcx_frame HL _ _ Hr) as (Ec & Et).
    intros t Ht. rewrite Ec. rewrite Et in Ht. now apply yielded_consistent.
  - rewrite vTrapYield_spec in Hrun.
    destruct (i =? portSYSCALL_TASK_YIELD); [|discriminate].
    injection Hrun as <-. apply yielded_consistent.
  - rewrite vPortSystemTickHandler_spec in Hrun. injection Hrun as <-.
    destruct (negb _).
    + apply yielded_consistent.
    + now apply tick_accounted_consistent.
  - unfold environment in Hrun. injection Hrun as <-. exact Hs.
Qed.

Lemma switch_run_consistent (HL : HardwareLaws HW) ops : forall s s',
  switch_consistent s -> switch_run ops s = Done tt s' -> switch_consistent s'.
Proof.
  induction ops as [|o rest IH]; intros s s' Hs Hrun; cbn [switch_run] in Hrun.
  - unfold ret in Hrun. now injection Hrun as <-.
  - unfold bind in Hrun.
    destruct (switch_step o s) as [[] s1| |] eqn:E; try discriminate.
    apply (IH s1); [|exact Hrun].
    now apply (switch_step_consistent HL o s).
Qed.

(** C4. Take any interleaving of voluntary yields ([vPortYield],
    [vTrapYield]), tick-driven switches ([vPortSystemTickHandler]) and
    activity of the core and the tasks in between, started where the
    current-task pointer is the policy's last choice (or the policy was
    never called). In every state reached, the current-task pointer is the
    value set by the last call of [vTaskSwitchContext]; and whichever entry
    point switches next, when its switch completes the pointer is the task
    the policy has just chosen and the identifier installed for resumption
    is the saved-context handle of that task. *)
Theorem current_task_is_last_selection
  (HL : HardwareLaws HW) (ops : list switch_op) (s s1 : state) :
  switch_consistent s ->
  switch_run ops s = Done tt s1 ->
  switch_consistent s1
  /\ (exists s2,
        prvYield s1 = Done tt s2
        /\ pxCurrentTCB s2 = snd (task_selection (kernel s1))
        /\ switch_completed s2)
  /\ (forall s2,
        vTrapYield portSYSCALL_TASK_YIELD s1 = Done tt s2 -> switch_completed s2)
  /\ (forall s2,
        snd (tick_accounting (kernel s1)) <> pdFALSE ->
        vPortSystemTickHandler s1 = Done tt s2 -> switch_completed s2)
  /\ (forall s2,
        vPortYield s1 = Done tt s2 ->
        exists sa sb,
          TriCore__svlcx s1 = Done tt sa
          /\ prvYield sa = Done tt sb /\ switch_completed sb
          /\ TriCore__rslcx sb = Done tt s2).
Proof.
  intros Hs Hrun. split; [exact (switch_run_consistent HL ops s s1 Hs Hrun)|].
  split.
  { exists (yielded s1). split; [apply prvYield_spec|].
    split; [reflexivity|apply yielded_completed]. }
  split.
  { intros s2 H. rewrite vTrapYield_spec, Z.eqb_refl in H.
    injection H as <-. apply yielded_completed. }
  split.
  { intros s2 Hdue H. rewrite vPortSystemTickHandler_spec in H.
    apply Z.eqb_neq in Hdue. rewrite Hdue in H. cbn [negb] in H.
    injection H as <-. apply yielded_completed. }
  intros s2 H. apply vPortYield_inv in H. destruct H as (sa & Hsa & Hr).
  exists sa, (yielded sa).
  split; [exact Hsa|]. split; [apply prvYield_spec|].
  split; [apply yielded_completed|exact Hr].
Qed.

(** ** Interrupt priority masking *)

Lemma word_high_bits x i : word x -> 32 <= i -> Z.testbit x i = false.
Proof.
  unfold word. intros Hx Hi. destruct (Z.eq_dec x 0) as [->|Hne].
  - apply Z.bits_0.
  - apply Z.bits_above_log2; [lia|].
    apply Z.log2_lt_pow2; [lia|].
    apply Z.lt_le_trans with (2 ^ 32); [lia|].
    apply Z.pow_le_mono_r; lia.
Qed.

Lemma not32_bit x i : 0 <= i -> Z.testbit (not32 x) i = xorb (Z.testbit x i) (i <? 32).
Proof.
  intros Hi. unfold not32. rewrite Z.lxor_spec. f_equal.
  change 0xFFFFFFFF with (Z.ones 32).
  destruct (Z.ltb_spec i 32).
  - apply Z.ones_spec_low. lia.
  - apply Z.ones_spec_high. lia.
Qed.

Ltac bits :=
  apply Z.bits_inj'; intros i Hi;
  repeat (rewrite Z.lor_spec || rewrite Z.land_spec
          || rewrite not32_bit by exact Hi).

Section Masking.

Hypothesis CL : CcpnLaws.

Lemma priority_bit i :
  0 <= i ->
  Z.testbit configMAX_SYSCALL_INTERRUPT_PRIORITY i = true ->
  Z.testbit portCCPN_MASK i = true.
Proof.
  intros Hi Hp. rewrite <- (syscall_priority_in_mask CL), Z.land_spec in Hp.
  now apply andb_true_iff in Hp.
Qed.

Lemma raised_field icr :
  Z.land (raised_ICR icr) portCCPN_MASK = configMAX_SYSCALL_INTERRUPT_PRIORITY.
Proof.
  unfold raised_ICR. bits.
  pose proof (priority_bit i Hi) as Hp.
  pose proof (word_high_bits _ i (ccpn_mask_word CL)) as Hh.
  destruct (Z.testbit icr i), (Z.testbit portCCPN_MASK i),
    (Z.testbit configMAX_SYSCALL_INTERRUPT_PRIORITY i), (Z.ltb_spec i 32);
    cbn; try reflexivity; try (discriminate (Hp eq_refl)); try (discriminate (Hh ltac:(lia))).
Qed.

Lemma raised_other_bits icr i :
  0 <= i -> Z.testbit portCCPN_MASK i = false ->
  Z.testbit (raised_ICR icr) i = Z.testbit icr i
  \/ (32 <= i /\ Z.testbit (raised_ICR icr) i = false).
Proof.
  intros Hi Hm. unfold raised_ICR.
  rewrite Z.lor_spec, Z.land_spec, not32_bit, Hm by exact Hi.
  pose proof (priority_bit i Hi) as Hp.
  destruct (Z.testbit configMAX_SYSCALL_INTERRUPT_PRIORITY i).
  - rewrite Hm in Hp. discriminate (Hp eq_refl).
  - destruct (Z.ltb_spec i 32).
    + left. cbn. now rewrite orb_false_r, andb_true_r.
    + right. split; [exact H|]. cbn. now rewrite andb_false_r.
Qed.

Lemma restored_raised_high icr :
  (forall i, 32 <= i -> Z.testbit icr i = false) ->
  restored_ICR (raised_ICR icr) (Z.land icr portCCPN_MASK) = icr.
Proof.
  intros Hw. unfold restored_ICR, raised_ICR. bits.
  pose proof (priority_bit i Hi) as Hp.
  pose proof (Hw i) as Hh.
  pose proof (word_high_bits _ i (ccpn_mask_word CL)) as Hm.
  destruct (Z.testbit icr i), (Z.testbit portCCPN_MASK i),
    (Z.testbit configMAX_SYSCALL_INTERRUPT_PRIORITY i), (Z.ltb_spec i 32);
    cbn; try reflexivity; try (discriminate (Hp eq_refl));
    try (discriminate (Hh ltac:(lia))); try (discriminate (Hm ltac:(lia))).
Qed.

(** The enable bit lies outside the priority field. *)

Lemma field_of_disabled x :
  Z.land (Z.clearbit x ie_bit) portCCPN_MASK = Z.land x portCCPN_MASK.
Proof.
  apply Z.bits_inj'. intros i _. rewrite !Z.land_spec, Z.clearbit_eqb.
  destruct (Z.eqb_spec ie_bit i) as [<-|_].
  - unfold ie_bit. rewrite (enable_bit_outside_mask CL). now rewrite !andb_false_r.
  - now rewrite andb_true_r.
Qed.

Lemma field_of_enabled x :
  Z.land (Z.setbit x ie_bit) portCCPN_MASK = Z.land x portCCPN_MASK.
Proof.
  apply Z.bits_inj'. intros i _.
  rewrite !Z.land_spec, Z.setbit_eqb by apply ie_bit_nonneg.
  destruct (Z.eqb_spec ie_bit i) as [<-|_]; [|reflexivity].
  unfold ie_bit. rewrite (enable_bit_outside_mask CL). now rewrite !andb_false_r.
Qed.

Lemma restored_raised icr :
  word icr -> restored_ICR (raised_ICR icr) (Z.land icr portCCPN_MASK) = icr.
Proof.
  intros Hw. apply restored_raised_high. intros i. now apply word_high_bits.
Qed.

Lemma clear_when_clear x : Z.testbit x ie_bit = false -> Z.clearbit x ie_bit = x.
Proof.
  intros Hx. apply Z.bits_inj'. intros i _. rewrite Z.clearbit_eqb.
  destruct (Z.eqb_spec ie_bit i) as [<-|_]; [now rewrite Hx|apply andb_true_r].
Qed.

Lemma raised_disabled x : Z.testbit (raised_ICR (Z.clearbit x ie_bit)) ie_bit = false.
Proof.
  unfold raised_ICR.
  rewrite Z.lor_spec, Z.land_spec, IE_disable. cbn [andb orb].
  destruct (Z.testbit configMAX_SYSCALL_INTERRUPT_PRIORITY ie_bit) eqn:E;
    [|reflexivity].
  apply (priority_bit _ ie_bit_nonneg) in E.
  unfold ie_bit in E. rewrite (enable_bit_outside_mask CL) in E. discriminate E.
Qed.

Lemma restored_disabled x saved :
  Z.land saved portCCPN_MASK = saved ->
  Z.testbit (restored_ICR (Z.clearbit x ie_bit) saved) ie_bit = false.
Proof.
  intros Hs. unfold restored_ICR.
  rewrite Z.lor_spec, Z.land_spec, IE_disable. cbn [andb orb].
  rewrite <- Hs, Z.land_spec. unfold ie_bit.
  rewrite (enable_bit_outside_mask CL). apply andb_false_r.
Qed.

(** The register after [uxPortSetInterruptMaskFromISR] and after the
    mask-clear operation that follows it. *)
Lemma ICR_mask_raised s :
  ICR (mask_raised s) = Z.setbit (raised_ICR (Z.clearbit (ICR s) ie_bit)) ie_bit
  /\ Z.clearbit (ICR (mask_raised s)) ie_bit = raised_ICR (Z.clearbit (ICR s) ie_bit)
  /\ Z.land (ICR (mask_raised s)) portCCPN_MASK = configMAX_SYSCALL_INTERRUPT_PRIORITY.
Proof.
  unfold mask_raised. proj. split; [reflexivity|]. split.
  - rewrite disable_enable. apply clear_when_clear, raised_disabled.
  - rewrite field_of_enabled. apply raised_field.
Qed.

Lemma ICR_restored s :
  word (ICR s) ->
  restored_ICR (raised_ICR (Z.clearbit (ICR s) ie_bit))
               (Z.land (Z.clearbit (ICR s) ie_bit) portCCPN_MASK)
  = Z.clearbit (ICR s) ie_bit.
Proof.
  intros Hw. apply restored_raised_high. intros i Hi.
  rewrite Z.clearbit_eqb, (word_high_bits _ i Hw Hi). reflexivity.
Qed.

(** C10 (as the code has it). [uxPortSetInterruptMaskFromISR] returns the
    previous value of the interrupt control register masked to the CCPN
    bits. In the register it leaves, the CCPN field is
    configMAX_SYSCALL_INTERRUPT_PRIORITY and the interrupt-enable bit is
    set, whatever it was, because the function ends in [TriCore__enable];
    every other bit is as it was. So every bit outside the field is
    unchanged when the function is entered with interrupts enabled. The
    register is read and written with interrupts disabled; no other
    register and no memory word changes. The value returned is the one to
    restore the field: after the mask-clear operation applied to it the
    register has its previous value, with the interrupt-enable bit set. (The
    register word is 32 bits wide, the syscall priority lies inside the
    field and the interrupt-enable bit outside it.) *)
Theorem uxPortSetInterruptMaskFromISR_sets_the_field_and_enables (s : state) :
  word (ICR s) ->
  exists s',
    uxPortSetInterruptMaskFromISR s = Done (Z.land (ICR s) portCCPN_MASK) s'
    /\ Z.land (ICR s') portCCPN_MASK = configMAX_SYSCALL_INTERRUPT_PRIORITY
    /\ IE s' = true
    /\ (forall i, 0 <= i -> Z.testbit portCCPN_MASK i = false -> i <> ie_bit ->
          Z.testbit (ICR s') i = Z.testbit (ICR s) i)
    /\ (IE s = true ->
        forall i, 0 <= i -> Z.testbit portCCPN_MASK i = false ->
          Z.testbit (ICR s') i = Z.testbit (ICR s) i)
    /\ FCX s' = FCX s /\ PCXI s' = PCXI s /\ PSW s' = PSW s
    /\ SYSCON s' = SYSCON s /\ mem s' = mem s
    /\ pxCurrentTCB s' = pxCurrentTCB s
    /\ trace s'
       = EvMtcr TRICORE_CPU_ICR (raised_ICR (Z.clearbit (ICR s) ie_bit)) false
         :: EvMfcr TRICORE_CPU_ICR (Z.clearbit (ICR s) ie_bit) false :: trace s
    /\ exists s'',
         portCLEAR_INTERRUPT_MASK_FROM_ISR (Z.land (ICR s) portCCPN_MASK) s'
         = Done tt s''
         /\ ICR s'' = Z.setbit (ICR s) ie_bit.
Proof.
  intros Hw. exists (mask_raised s).
  destruct (ICR_mask_raised s) as (E1 & E2 & E3).
  assert (Hbits : forall i, 0 <= i -> Z.testbit portCCPN_MASK i = false -> i <> ie_bit ->
            Z.testbit (ICR (mask_raised s)) i = Z.testbit (ICR s) i).
  { intros i Hi Hm Hne. rewrite E1, Z.setbit_neq by (try apply ie_bit_nonneg; congruence).
    destruct (raised_other_bits (Z.clearbit (ICR s) ie_bit) i Hi Hm) as [E|(Hh & E)].
    - rewrite E. apply Z.clearbit_neq. congruence.
    - rewrite E. symmetry. now apply word_high_bits. }
  split; [rewrite uxPortSetInterruptMaskFromISR_spec, field_of_disabled; reflexivity|].
  split; [exact E3|].
  split; [unfold IE; rewrite E1; apply IE_enable|].
  split; [exact Hbits|].
  split.
  { intros Hie i Hi Hm. destruct (Z.eq_dec i ie_bit) as [->|Hne].
    - unfold IE in Hie. rewrite Hie, E1. apply IE_enable.
    - now apply Hbits. }
  unfold mask_raised at 1 2 3 4 5 6 7. proj.
  repeat (split; [reflexivity|]).
  exists (mask_cleared (Z.land (ICR s) portCCPN_MASK) (mask_raised s)).
  split; [apply portCLEAR_INTERRUPT_MASK_FROM_ISR_spec|].
  unfold mask_cleared. proj. rewrite E2, <- (field_of_disabled (ICR s)).
  rewrite ICR_restored by exact Hw. apply enable_disable.
Qed.

Lemma isrSTM_spec s :
  isrSTM s
  = vPortSystemTickHandler (set_comparator (comparator s + g_ticksFor1ms s) s).
Proof.
  unfold isrSTM. erewrite bind_eq by reflexivity. cbv beta.
  erewrite bind_eq by reflexivity. reflexivity.
Qed.

(** What the tick handler has done when it tests [lYieldRequired]. *)
Lemma tick_accounted_state s :
  word (ICR s) ->
  let due := snd (tick_accounting (kernel s)) in
  let read := Z.clearbit (ICR s) ie_bit in
  let raised := raised_ICR read in
  trace (tick_accounted s)
  = EvMtcr TRICORE_CPU_ICR read false
    :: EvMfcr TRICORE_CPU_ICR raised false
    :: EvIncrementTick (Z.setbit raised ie_bit) due
    :: EvMtcr TRICORE_CPU_ICR raised false
    :: EvMfcr TRICORE_CPU_ICR read false :: trace s
  /\ ICR (tick_accounted s) = Z.setbit (ICR s) ie_bit.
Proof.
  intros Hw. cbv zeta.
  destruct (ICR_mask_raised s) as (E1 & E2 & E3).
  unfold tick_accounted, mask_cleared. proj.
  rewrite E2, (ICR_restored s Hw), E1, enable_disable.
  unfold mask_raised. proj. split; reflexivity.
Qed.

(** C8. One invocation of the tick interrupt handler [isrSTM] always
    returns. The comparator it leaves is the previous comparator plus the
    tick period; [xTaskIncrementTick] is called exactly once, at a moment
    when the CCPN field of the interrupt control register is
    configMAX_SYSCALL_INTERRUPT_PRIORITY, between the write that raises the
    field and the write that puts the previous field back, each made with
    interrupts disabled on the value just read; the register is then as it
    was, with the interrupt-enable bit set; after that the switch
    [prvYield] runs when the tick accounting answered that a switch is due,
    and does not run when it answered [pdFALSE]. *)
Theorem isrSTM_advances_comparator_and_ticks_once (s : state) :
  word (ICR s) ->
  exists s1 s',
    isrSTM s = Done tt s'
    /\ comparator s' = comparator s + g_ticksFor1ms s
    /\ (let due := snd (tick_accounting (kernel s)) in
        let read := Z.clearbit (ICR s) ie_bit in
        let raised := raised_ICR read in
        let masked := Z.setbit raised ie_bit in
        trace s1 = EvMtcr TRICORE_CPU_ICR read false
                   :: EvMfcr TRICORE_CPU_ICR raised false
                   :: EvIncrementTick masked due
                   :: EvMtcr TRICORE_CPU_ICR raised false
                   :: EvMfcr TRICORE_CPU_ICR read false :: trace s
        /\ Z.land masked portCCPN_MASK = configMAX_SYSCALL_INTERRUPT_PRIORITY
        /\ ICR s1 = Z.setbit (ICR s) ie_bit /\ ICR s' = Z.setbit (ICR s) ie_bit
        /\ (IE s = true -> ICR s1 = ICR s /\ ICR s' = ICR s)
        /\ tick_calls (trace s') = (masked, due) :: tick_calls (trace s)
        /\ (due <> pdFALSE ->
            prvYield s1 = Done tt s'
            /\ switch_calls (trace s')
               = snd (task_selection (fst (tick_accounting (kernel s))))
                 :: switch_calls (trace s))
        /\ (due = pdFALSE ->
            s' = s1 /\ switch_calls (trace s') = switch_calls (trace s))).
Proof.
  intros Hw.
  set (s0 := set_comparator (comparator s + g_ticksFor1ms s) s).
  assert (Hw0 : word (ICR s0)) by exact Hw.
  destruct (tick_accounted_state s0 Hw0) as (Et & Ei). cbv zeta in Et.
  change (ICR s0) with (ICR s) in Et, Ei.
  change (kernel s0) with (kernel s) in Et.
  change (trace s0) with (trace s) in Et.
  exists (tick_accounted s0).
  exists (if negb (snd (tick_accounting (kernel s)) =? pdFALSE)
          then yielded (tick_accounted s0) else tick_accounted s0).
  split; [rewrite isrSTM_spec, vPortSystemTickHandler_spec; reflexivity|].
  split; [destruct (negb _); reflexivity|].
  cbv zeta.
  assert (Ey : ICR (yielded (tick_accounted s0)) = Z.setbit (ICR s) ie_bit).
  { unfold yielded. proj. rewrite Ei. apply enable_enable. }
  split; [exact Et|].
  split; [rewrite field_of_enabled; apply raised_field|].
  split; [exact Ei|].
  split; [destruct (negb _); [exact Ey|exact Ei]|].
  split.
  { intros Hie. unfold IE in Hie. pose proof (enabled_set _ Hie) as Es.
    split; [rewrite Ei; exact Es|].
    destruct (negb _); [rewrite Ey|rewrite Ei]; exact Es. }
  split.
  { destruct (negb _).
    - unfold yielded. proj. rewrite Et. reflexivity.
    - rewrite Et. reflexivity. }
  split.
  - intros Hdue. apply Z.eqb_neq in Hdue. rewrite Hdue. cbn [negb].
    split; [apply prvYield_spec|].
    unfold yielded. proj. rewrite Et. reflexivity.
  - intros Hdue. rewrite Hdue. cbn [negb Z.eqb pdFALSE]. split; [reflexivity|].
    rewrite Et. reflexivity.
Qed.

End Masking.


End PortProofs.

(** * Further properties of port.c *)

Section RestProofs.

Context {K : Kernel} {PM : PortMacros} {HW : Hardware} {TS : TimerSetup}
        {SB : StaticBuffers}.

Ltac proj :=
  unfold IE;
  cbn [negb andb read_creg write_creg
       set_FCX set_PCXI set_ICR set_PSW set_SYSCON set_IE set_mem set_current
       set_kernel set_nesting set_comparator log logs
       FCX PCXI ICR PSW SYSCON mem pxCurrentTCB kernel
       uxCriticalNesting comparator g_ticksFor1ms trace].

Ltac step := erewrite bind_eq by reflexivity; cbv beta; proj.

Ltac flags :=
  rewrite ?IE_disable, ?IE_enable, ?enable_disable, ?disable_enable, ?enable_enable.

(** ** The context behind a handle *)

Lemma initial_context_upper_word m lo up t c p i :
  lo + 64 <= up \/ up + 64 <= lo -> 0 <= i < 16 ->
  initial_context m lo up t c p (at_index up i)
  = if i =? 2 then t else if i =? 1 then portSYSTEM_PROGRAM_STATUS_WORD else 0.
Proof.
  intros Hap Hi. unfold initial_context.
  rewrite !upd_other by (unfold at_index, sizeof_unsigned_long; lia).
  rewrite zero_words_outside
    by (intros j Hj; unfold at_index, sizeof_unsigned_long; lia).
  destruct (Z.eqb_spec i 2) as [->|H2].
  { rewrite upd_other by (unfold at_index, sizeof_unsigned_long; lia).
    apply upd_same. }
  destruct (Z.eqb_spec i 1) as [->|H1]; [apply upd_same|].
  rewrite !upd_other by (unfold at_index, sizeof_unsigned_long; lia).
  apply zero_words_inside. lia.
Qed.

Lemma initial_context_lower_word m lo up t c p i :
  0 <= i < 16 ->
  initial_context m lo up t c p (at_index lo i)
  = if i =? 8 then p
    else if i =? 1 then c
    else if i =? 0
         then Z.lor portINITIAL_PCXI_UPPER_CONTEXT_WORD (portADDRESS_TO_CSA up)
    else 0.
Proof.
  intros Hi. unfold initial_context.
  destruct (Z.eqb_spec i 8) as [->|H8].
  { rewrite !upd_other by (unfold at_index, sizeof_unsigned_long; lia).
    apply upd_same. }
  destruct (Z.eqb_spec i 1) as [->|H1].
  { rewrite upd_other by (unfold at_index, sizeof_unsigned_long; lia).
    apply upd_same. }
  destruct (Z.eqb_spec i 0) as [->|H0]; [apply upd_same|].
  rewrite !upd_other by (unfold at_index, sizeof_unsigned_long; lia).
  apply zero_words_inside. lia.
Qed.

(** Where the handle of a built context leads. *)
Lemma built_handle (L : CsaLaws) t c p s :
  two_free s ->
  let h := portADDRESS_TO_CSA (lower_of s) in
  portCSA_TO_ADDRESS h = lower_of s
  /\ portCSA_TO_ADDRESS (mem (built t c p s) (lower_of s)) = upper_of s
  /\ h <> 0 /\ portADDRESS_TO_CSA (upper_of s) <> 0
  /\ link (mem (built t c p s)) h = portADDRESS_TO_CSA (upper_of s)
  /\ link (mem (built t c p s)) (portADDRESS_TO_CSA (upper_of s)) = 0.
Proof.
  intros (Hl & Hu & Hlu). cbv zeta.
  assert (Hap : lower_of s + 64 <= upper_of s \/ upper_of s + 64 <= lower_of s)
    by (apply (records_apart L); exact Hlu).
  assert (E1 : portCSA_TO_ADDRESS (portADDRESS_TO_CSA (lower_of s)) = lower_of s).
  { unfold lower_of. rewrite (csa_round_trip L). apply (csa_low20 L). }
  assert (E2 : portCSA_TO_ADDRESS (portADDRESS_TO_CSA (upper_of s)) = upper_of s).
  { unfold upper_of. rewrite (csa_round_trip L). apply (csa_low20 L). }
  assert (Em : mem (built t c p s) (lower_of s)
               = Z.lor portINITIAL_PCXI_UPPER_CONTEXT_WORD
                       (portADDRESS_TO_CSA (upper_of s)))
    by (unfold built; proj; apply initial_context_lower).
  assert (El : Z.land (mem (built t c p s) (lower_of s)) portCSA_FCX_MASK
               = portADDRESS_TO_CSA (upper_of s)).
  { rewrite Em, tag_outside_mask. unfold upper_of at 1.
    rewrite (csa_round_trip L), mask_idempotent.
    unfold upper_of. now rewrite (csa_round_trip L). }
  split; [exact E1|].
  split.
  { rewrite <- (csa_low20 L), El. exact E2. }
  split.
  { intros E. apply Hl. rewrite <- E1, E. apply (csa_null L). }
  split.
  { intros E. apply Hu. rewrite <- E2, E. apply (csa_null L). }
  split.
  { unfold link. rewrite E1. exact El. }
  unfold link. rewrite E2. unfold built. proj.
  now rewrite initial_context_upper.
Qed.

(** X1. The handle that a successful [pxPortInitialiseStack] returns leads
    back to everything the task was given: the record it names holds the
    entry address in word 1 and the argument in word 8, the record which
    that one links to holds the stack pointer in word 2 (the access path
    that the comment at the head of port.c gives) and the initial program
    status word in word 1, and the chain from the handle is exactly these
    two records. *)
Theorem handle_leads_to_stack_pointer
  (L : CsaLaws) (pxTopOfStack pxCode pvParameters : Z) (s : state) :
  two_free s ->
  exists h s',
    pxPortInitialiseStack pxTopOfStack pxCode pvParameters s = Done h s'
    /\ (let pulLowerCSA := portCSA_TO_ADDRESS h in
        let pulUpperCSA := portCSA_TO_ADDRESS (mem s' (at_index pulLowerCSA 0)) in
        mem s' (at_index pulUpperCSA 2) = pxTopOfStack
        /\ mem s' (at_index pulUpperCSA 1) = portSYSTEM_PROGRAM_STATUS_WORD
        /\ mem s' (at_index pulLowerCSA 1) = pxCode
        /\ mem s' (at_index pulLowerCSA 8) = pvParameters
        /\ walk 3 (mem s') h = Some [h; portADDRESS_TO_CSA pulUpperCSA]).
Proof.
  intros Hfree. pose proof Hfree as (Hl & Hu & Hlu).
  assert (Hap : lower_of s + 64 <= upper_of s \/ upper_of s + 64 <= lower_of s)
    by (apply (records_apart L); exact Hlu).
  destruct (built_handle L pxTopOfStack pxCode pvParameters s Hfree)
    as (E1 & E2 & Hh & Hup & Elink & Eend).
  exists (portADDRESS_TO_CSA (lower_of s)), (built pxTopOfStack pxCode pvParameters s).
  split; [now apply pxPortInitialiseStack_success|].
  cbv zeta. rewrite E1, at_index_0, E2.
  unfold built at 1 2 3 4. proj.
  rewrite !initial_context_upper_word by (trivial; lia).
  rewrite !initial_context_lower_word by lia.
  repeat (split; [reflexivity|]).
  apply chain_walk with (ids := [_; _]).
  split; [reflexivity|]. split; [exact Hh|]. rewrite Elink.
  split; [reflexivity|]. split; [exact Hup|exact Eend].
Qed.

(** ** How many contexts a pool gives *)

Lemma bind_out_of_fuel {A B} (m : M A) (k : A -> M B) s :
  m s = OutOfFuel -> bind m k s = OutOfFuel.
Proof. unfold bind. intros ->. reflexivity. Qed.



(** ** Reclaiming what must not be reclaimed *)

Lemma chain_successor m c ids e :
  chain m c ids e ->
  forall x, In x ids -> In (link m x) ids \/ link m x = e.
Proof.
  revert c. induction ids as [|y r IH]; intros c H x Hx; [contradiction|].
  destruct H as (-> & Hy & H). destruct Hx as [->|Hx].
  - destruct r as [|z r'].
    + right. exact H.
    + left. right. left. destruct H as (E & _). now symmetry.
  - destruct (IH _ H x Hx) as [Hin|He]; [left; now right|right; exact He].
Qed.

Lemma cyclic_closed m h ids :
  cyclic m h ids ->
  In h ids /\ forall x, In x ids -> x <> 0 /\ link m x <> 0 /\ In (link m x) ids.
Proof.
  intros (Hne & Hc).
  assert (Hh : In h ids).
  { destruct ids as [|y r]; [congruence|]. destruct Hc as (-> & _). now left. }
  split; [exact Hh|]. intros x Hx.
  pose proof (chain_nonzero _ _ _ _ Hc) as Hnz. rewrite Forall_forall in Hnz.
  assert (Hin : In (link m x) ids).
  { destruct (chain_successor _ _ _ _ Hc x Hx) as [Hin|E]; [exact Hin|].
    now rewrite E. }
  split; [now apply Hnz|]. split; [now apply Hnz|exact Hin].
Qed.

Lemma strip_keeps_link (m : memory) x y :
  link (upd m (portCSA_TO_ADDRESS x)
            (Z.land (m (portCSA_TO_ADDRESS x)) portCSA_FCX_MASK)) y
  = link m y.
Proof.
  unfold link, upd.
  destruct (Z.eqb_spec (portCSA_TO_ADDRESS y) (portCSA_TO_ADDRESS x)) as [E|_];
    [|reflexivity].
  rewrite E. apply mask_idempotent.
Qed.

Lemma reclaim_walk_cycle m ids fuel : forall t x s,
  (forall y, In y ids -> y <> 0 /\ link m y <> 0 /\ In (link m y) ids) ->
  (forall y, link (mem s) y = link m y) ->
  In x ids ->
  reclaim_walk fuel t (portCSA_TO_ADDRESS x) s = OutOfFuel.
Proof.
  induction fuel as [|f IH]; intros t x s Hcl Hm Hx; [reflexivity|].
  destruct (Hcl x Hx) as (_ & Hnz & Hin).
  cbn [reclaim_walk]. step. rewrite at_index_0.
  fold (link (mem s) x). rewrite Hm.
  destruct (Z.eqb_spec (link m x) 0) as [E|_]; [contradiction|]. proj.
  do 2 step. rewrite !at_index_0, upd_same.
  apply IH; trivial.
  proj. intros y. rewrite <- (Hm x). unfold link at 2.
  rewrite strip_keeps_link. apply Hm.
Qed.

Lemma walk_cycle m h ids :
  cyclic m h ids -> forall n, walk n m h = None.
Proof.
  intros Hc n. destruct (cyclic_closed _ _ _ Hc) as (Hh & Hcl).
  revert h Hh Hc. induction n as [|n IH]; intros h Hh Hc; [reflexivity|].
  assert (E : forall k x, In x ids -> walk k m x = None).
  { clear -Hcl. induction k as [|k IHk]; intros x Hx; [reflexivity|].
    destruct (Hcl x Hx) as (Hx0 & _ & Hin).
    cbn [walk]. destruct (Z.eqb_spec x 0) as [E|_]; [contradiction|].
    now rewrite IHk. }
  now apply E.
Qed.

Lemma reclaim_never_returns pxTCB ids s fuel :
  cyclic (mem s) (Z.land (mem s pxTCB) portCSA_FCX_MASK) ids ->
  vPortReclaimCSA fuel pxTCB s = OutOfFuel.
Proof.
  intros Hc. destruct (cyclic_closed _ _ _ Hc) as (Hh & Hcl).
  unfold vPortReclaimCSA. step. rewrite at_index_0.
  apply bind_out_of_fuel.
  apply (reclaim_walk_cycle (mem s) ids); trivial.
Qed.

(** X4. On a chain that comes back to its first record [vPortReclaimCSA]
    never returns: the walk to the tail uses up any amount of fuel (the
    chain has no record whose link is the terminator), and the splice onto
    the free list is never reached. That the chain has no cycle is left to
    the caller. *)
Theorem vPortReclaimCSA_loops_on_a_cycle
  (pxTCB : Z) (ids : list Z) (s : state) :
  cyclic (mem s) (Z.land (mem s pxTCB) portCSA_FCX_MASK) ids ->
  (forall fuel, vPortReclaimCSA fuel pxTCB s = OutOfFuel)
  /\ (forall n, walk n (mem s) (Z.land (mem s pxTCB) portCSA_FCX_MASK) = None).
Proof.
  intros Hc. split.
  - intros fuel. now apply (reclaim_never_returns pxTCB ids).
  - now apply (walk_cycle _ _ ids).
Qed.

(** X5. Reclaiming the same handle a second time makes the free list
    cyclic. The first [vPortReclaimCSA] puts the chain in front of the pool;
    the second walks the whole free list from that same handle and stores
    the head into the link word of its last record, so that following link
    words from the free-list head never reaches the terminator; a third
    call never returns. *)
Theorem second_reclaim_ties_the_free_list
  (L : CsaLaws) (pxTCB : Z) (ids P : list Z) (s : state) (fuel : nat) :
  task_chain s pxTCB ids -> ids <> [] ->
  free_pool s P -> (forall x, In x ids -> ~ In x P) ->
  outside (ids ++ P) pxTCB = true ->
  (length ids + length P <= fuel)%nat ->
  exists s1 s2,
    vPortReclaimCSA fuel pxTCB s = Done tt s1
    /\ free_pool s1 (ids ++ P)
    /\ vPortReclaimCSA fuel pxTCB s1 = Done tt s2
    /\ cyclic (mem s2) (Z.land (FCX s2) portCSA_FCX_MASK) (ids ++ P)
    /\ (forall n, walk n (mem s2) (Z.land (FCX s2) portCSA_FCX_MASK) = None)
    /\ (forall fuel', vPortReclaimCSA fuel' pxTCB s2 = OutOfFuel).
Proof.
  intros Hc Hne HP Hdis Hout Hfuel.
  assert (Hh : hd 0 ids = Z.land (mem s pxTCB) portCSA_FCX_MASK).
  { destruct ids as [|x r]; [congruence|]. destruct Hc as (<- & _). reflexivity. }
  assert (Hhm : Z.land (hd 0 ids) portCSA_FCX_MASK = hd 0 ids)
    by (rewrite Hh; apply mask_idempotent).
  assert (Hne1 : ids ++ P <> []) by (destruct ids; [congruence|discriminate]).
  assert (Hhd : hd 0 (ids ++ P) = hd 0 ids) by (destruct ids; [congruence|reflexivity]).
  assert (Hnot : forall l, incl l (ids ++ P) -> l <> [] ->
                 forall s0, mem (reclaimed l s0) pxTCB = mem s0 pxTCB).
  { intros l Hi Hl s0. apply reclaimed_mem_other; [exact Hl|].
    rewrite in_map_iff. intros (x & E & Hx). revert E.
    apply (outside_not_link (ids ++ P)); [exact Hout|]. now apply Hi. }
  set (s1 := reclaimed ids s).
  assert (HP1 : free_pool s1 (ids ++ P)) by now apply (reclaimed_pool L s pxTCB).
  assert (Em1 : mem s1 pxTCB = mem s pxTCB)
    by (apply Hnot; [apply incl_appl, incl_refl|exact Hne]).
  assert (E1 : FCX s1 = hd 0 ids) by reflexivity.
  assert (Hc1 : task_chain s1 pxTCB (ids ++ P)).
  { unfold task_chain. rewrite Em1, <- Hh.
    unfold free_pool in HP1. rewrite E1, Hhm in HP1. exact HP1. }
  set (s2 := reclaimed (ids ++ P) s1).
  assert (E2 : FCX s2 = hd 0 ids) by (unfold s2, reclaimed; proj; exact Hhd).
  assert (Em2 : mem s2 pxTCB = mem s pxTCB)
    by (unfold s2; rewrite Hnot; [exact Em1|apply incl_refl|exact Hne1]).
  assert (Hcyc : cyclic (mem s2) (hd 0 ids) (ids ++ P)).
  { split; [exact Hne1|].
    assert (Hsp : chain (mem s2) (hd 0 ids) (ids ++ P)
                        (Z.land (FCX s1) portCSA_FCX_MASK)).
    { unfold s2, reclaimed. proj. apply chain_spliced; trivial.
      - unfold task_chain in Hc1. rewrite Em1, <- Hh in Hc1. exact Hc1.
      - apply (chain_addresses_NoDup L (mem s1)
                 (Z.land (mem s1 pxTCB) portCSA_FCX_MASK));
          [apply mask_idempotent|exact Hc1]. }
    rewrite E1, Hhm in Hsp. exact Hsp. }
  exists s1, s2.
  split.
  { rewrite (vPortReclaimCSA_spec L fuel pxTCB ids s Hc Hne).
    replace (length ids <=? fuel)%nat with true
      by (symmetry; apply Nat.leb_le; lia).
    reflexivity. }
  split; [exact HP1|].
  split.
  { rewrite (vPortReclaimCSA_spec L fuel pxTCB (ids ++ P) s1 Hc1 Hne1).
    replace (length (ids ++ P) <=? fuel)%nat with true
      by (symmetry; apply Nat.leb_le; rewrite length_app; lia).
    reflexivity. }
  rewrite E2, Hhm.
  split; [exact Hcyc|].
  split; [now apply (walk_cycle _ _ (ids ++ P))|].
  intros fuel'. apply (reclaim_never_returns pxTCB (ids ++ P)).
  rewrite Em2, <- Hh. exact Hcyc.
Qed.


(** ** Switches that come back *)

(** X7. When the policy selects the task that is running, [prvYield]
    resumes it where it was: the link word of the record that the context
    register identifies is as before, the control block has received that
    link word, and no other memory word changes. *)
Theorem yield_to_the_running_task (s : state) :
  snd (task_selection (kernel s)) = pxCurrentTCB s ->
  exists s',
    prvYield s = Done tt s'
    /\ pxCurrentTCB s' = pxCurrentTCB s
    /\ PCXI s' = PCXI s
    /\ mem s' (portCSA_TO_ADDRESS (PCXI s)) = mem s (portCSA_TO_ADDRESS (PCXI s))
    /\ mem s' (pxCurrentTCB s) = mem s (portCSA_TO_ADDRESS (PCXI s))
    /\ (forall x, x <> pxCurrentTCB s -> mem s' x = mem s x).
Proof.
  intros Hsel. exists (yielded s). split; [apply prvYield_spec|].
  unfold yielded. proj. rewrite Hsel.
  split; [reflexivity|]. split; [reflexivity|].
  rewrite !upd_same.
  split; [reflexivity|].
  split.
  - unfold upd. destruct (pxCurrentTCB s =? portCSA_TO_ADDRESS (PCXI s));
      [reflexivity|]. now rewrite Z.eqb_refl.
  - intros x Hx. unfold upd.
    destruct (Z.eqb_spec x (portCSA_TO_ADDRESS (PCXI s))) as [->|_];
      [reflexivity|].
    destruct (Z.eqb_spec x (pxCurrentTCB s)); [contradiction|reflexivity].
Qed.

(** X8. Switching away and back. At one and the same context record, a
    [prvYield] that selects another task followed by a [prvYield] that
    selects the first task again leaves the link word as it was at the
    start, with the first task's control block holding it; the other
    task's control block and every other memory word are untouched. The
    control blocks are distinct and neither is the link word. *)
Theorem yield_away_and_back (s : state) (k1 k2 : kstate) (B : Z) :
  task_selection (kernel s) = (k1, B) ->
  task_selection k1 = (k2, pxCurrentTCB s) ->
  B <> pxCurrentTCB s ->
  pxCurrentTCB s <> portCSA_TO_ADDRESS (PCXI s) ->
  B <> portCSA_TO_ADDRESS (PCXI s) ->
  exists s1 s2,
    prvYield s = Done tt s1
    /\ pxCurrentTCB s1 = B
    /\ mem s1 (portCSA_TO_ADDRESS (PCXI s)) = mem s B
    /\ prvYield s1 = Done tt s2
    /\ pxCurrentTCB s2 = pxCurrentTCB s
    /\ mem s2 (portCSA_TO_ADDRESS (PCXI s)) = mem s (portCSA_TO_ADDRESS (PCXI s))
    /\ mem s2 (pxCurrentTCB s) = mem s (portCSA_TO_ADDRESS (PCXI s))
    /\ (forall x, x <> pxCurrentTCB s -> mem s2 x = mem s x).
Proof.
  intros H1 H2 HBA HAa HBa.
  exists (yielded s), (yielded (yielded s)).
  split; [apply prvYield_spec|].
  assert (Ek : kernel (yielded s) = k1) by (unfold yielded; proj; now rewrite H1).
  assert (Ec : pxCurrentTCB (yielded s) = B) by (unfold yielded; proj; now rewrite H1).
  assert (Ep : PCXI (yielded s) = PCXI s) by reflexivity.
  assert (Em : mem (yielded s)
               = upd (upd (mem s) (pxCurrentTCB s) (mem s (portCSA_TO_ADDRESS (PCXI s))))
                     (portCSA_TO_ADDRESS (PCXI s)) (mem s B)).
  { unfold yielded. proj. rewrite H1. cbn [snd]. f_equal.
    apply upd_other. exact HBA. }
  split; [exact Ec|].
  split; [rewrite Em; apply upd_same|].
  split; [apply prvYield_spec|].
  unfold yielded at 1 3 5 7. proj. rewrite Ek, Ec, Ep, H2. cbn [snd].
  set (a := portCSA_TO_ADDRESS (PCXI s)) in *.
  set (A := pxCurrentTCB s) in *.
  split; [reflexivity|].
  assert (EA : mem (yielded s) A = mem s a).
  { rewrite Em. rewrite upd_other by exact HAa. apply upd_same. }
  assert (EB : mem (yielded s) a = mem s B) by (rewrite Em; apply upd_same).
  rewrite upd_same.
  assert (ESA : upd (mem (yielded s)) B (mem (yielded s) a) A = mem s a).
  { rewrite upd_other by congruence. exact EA. }
  split; [exact ESA|].
  split.
  { rewrite upd_other by exact HAa. exact ESA. }
  intros x Hx. unfold upd at 1.
  destruct (Z.eqb_spec x a) as [->|Hxa]; [exact ESA|].
  unfold upd at 1. destruct (Z.eqb_spec x B) as [->|HxB].
  - exact EB.
  - rewrite Em. now rewrite !upd_other.
Qed.

(** X9. The switch engine never changes the Free Pool: when neither the
    running task's control block nor the record that the context register
    identifies is a link word of the pool, [prvYield] and the tick handler
    leave the free-list head and the records of the pool as they were. *)
Theorem switch_leaves_the_free_pool (s : state) (P : list Z) :
  free_pool s P ->
  (forall x, In x P ->
     portCSA_TO_ADDRESS x <> pxCurrentTCB s
     /\ portCSA_TO_ADDRESS x <> portCSA_TO_ADDRESS (PCXI s)) ->
  (exists s', prvYield s = Done tt s' /\ FCX s' = FCX s /\ free_pool s' P)
  /\ (exists s', vPortSystemTickHandler s = Done tt s'
                 /\ FCX s' = FCX s /\ free_pool s' P).
Proof.
  intros HP Hout.
  assert (Hy : forall s0, FCX s0 = FCX s -> mem s0 = mem s ->
                 pxCurrentTCB s0 = pxCurrentTCB s -> PCXI s0 = PCXI s ->
                 FCX (yielded s0) = FCX s /\ free_pool (yielded s0) P).
  { intros s0 Ef Em Ec Ep. split; [exact Ef|].
    unfold free_pool, yielded. proj. rewrite Ef, Em, Ec, Ep.
    apply chain_ext with (m := mem s); [|exact HP].
    intros x Hx. destruct (Hout x Hx) as (H1 & H2).
    now rewrite !upd_other. }
  split.
  - exists (yielded s). split; [apply prvYield_spec|]. now apply Hy.
  - eexists. split; [apply vPortSystemTickHandler_spec|].
    destruct (negb _).
    + now apply Hy.
    + split; [reflexivity|exact HP].
Qed.

(** X10. The first switch into a task that has just been created. After
    the kernel has created a task (context built, handle kept in the
    control block), a [prvYield] for which the policy selects that task
    installs, in the link word of the record that the context register
    identifies, the handle of the new task's Lower Context, the register
    itself being left as it was; behind that handle the entry address, the
    argument and the stack pointer are as given. The control block of the
    task that was running and the record of the context register lie
    outside the two records taken. *)
Theorem first_switch_into_a_new_task
  (L : CsaLaws) (pxTCB pxTopOfStack pxCode pvParameters : Z)
  (s : state) (c0 c1 : Z) (rest : list Z) :
  free_pool s (c0 :: c1 :: rest) ->
  outside (c0 :: c1 :: rest) pxTCB = true ->
  snd (task_selection (kernel s)) = pxTCB ->
  pxCurrentTCB s <> pxTCB ->
  portCSA_TO_ADDRESS (PCXI s) <> pxTCB ->
  outside [c0; c1] (pxCurrentTCB s) = true ->
  outside [c0; c1] (portCSA_TO_ADDRESS (PCXI s)) = true ->
  exists s1 s2,
    create_task pxTCB pxTopOfStack pxCode pvParameters s = Done tt s1
    /\ prvYield s1 = Done tt s2
    /\ pxCurrentTCB s2 = pxTCB
    /\ PCXI s2 = PCXI s
    /\ mem s2 (portCSA_TO_ADDRESS (PCXI s)) = c0
    /\ (let pulLowerCSA := portCSA_TO_ADDRESS c0 in
        let pulUpperCSA := portCSA_TO_ADDRESS (mem s2 (at_index pulLowerCSA 0)) in
        mem s2 (at_index pulLowerCSA 1) = pxCode
        /\ mem s2 (at_index pulLowerCSA 8) = pvParameters
        /\ mem s2 (at_index pulUpperCSA 2) = pxTopOfStack).
Proof.
  intros HP Hout Hsel HA Ha HoA Hoa.
  destruct (pool_head L _ _ _ _ HP) as (El & Eu & M0 & M1 & Hne & Hl & Hu & Hap).
  assert (Hfree : two_free s) by (repeat split; trivial; lia).
  destruct (built_pool L pxTopOfStack pxCode pvParameters s c0 c1 rest HP)
    as (_ & _ & Eh & _).
  destruct (built_handle L pxTopOfStack pxCode pvParameters s Hfree)
    as (_ & E2 & _).
  set (s1 := created pxTCB pxTopOfStack pxCode pvParameters s).
  set (b := built pxTopOfStack pxCode pvParameters s) in *.
  assert (Eb : forall i, 0 <= i < 16 ->
             forall base, base = lower_of s \/ base = upper_of s ->
               mem s1 (at_index base i) = mem b (at_index base i)).
  { intros i Hi base Hbase. unfold s1, created. proj. fold b.
    apply upd_other. rewrite at_index_0.
    pose proof (proj1 (outside_spec _ _) Hout) as Ho.
    pose proof (Ho c0 (or_introl eq_refl)) as H0.
    pose proof (Ho c1 (or_intror (or_introl eq_refl))) as H1.
    rewrite <- El in H0. rewrite <- Eu in H1.
    unfold at_index, sizeof_unsigned_long. destruct Hbase; subst base; lia. }
  assert (Ey : forall x, x <> pxCurrentTCB s -> x <> portCSA_TO_ADDRESS (PCXI s) ->
                 mem (yielded s1) x = mem s1 x).
  { intros x H1 H2. unfold yielded. proj. now rewrite !upd_other. }
  assert (Ein : forall i, 0 <= i < 16 ->
             forall base, base = lower_of s \/ base = upper_of s ->
               mem (yielded s1) (at_index base i) = mem b (at_index base i)).
  { intros i Hi base Hbase. rewrite Ey; [now apply Eb| |].
    - pose proof (proj1 (outside_spec _ _) HoA) as Ho.
      pose proof (Ho c0 (or_introl eq_refl)) as H0.
      pose proof (Ho c1 (or_intror (or_introl eq_refl))) as H1.
      rewrite <- El in H0. rewrite <- Eu in H1.
      unfold at_index, sizeof_unsigned_long. destruct Hbase; subst base; lia.
    - pose proof (proj1 (outside_spec _ _) Hoa) as Ho.
      pose proof (Ho c0 (or_introl eq_refl)) as H0.
      pose proof (Ho c1 (or_intror (or_introl eq_refl))) as H1.
      rewrite <- El in H0. rewrite <- Eu in H1.
      unfold at_index, sizeof_unsigned_long. destruct Hbase; subst base; lia. }
  exists s1, (yielded s1).
  split; [now apply create_task_success|].
  split; [apply prvYield_spec|].
  split; [exact Hsel|].
  split; [reflexivity|].
  split.
  { unfold yielded. proj.
    change (PCXI s1) with (PCXI s). rewrite upd_same.
    change (kernel s1) with (kernel s). change (pxCurrentTCB s1) with (pxCurrentTCB s).
    rewrite Hsel, upd_other by congruence.
    unfold s1, created. proj. rewrite at_index_0, upd_same. exact Eh. }
  cbv zeta. rewrite <- El.
  rewrite (Ein 0) by (try lia; now left). rewrite at_index_0.
  rewrite E2.
  rewrite !Ein by (try lia; tauto).
  unfold b, built. proj.
  rewrite !initial_context_lower_word by lia.
  rewrite initial_context_upper_word by (trivial; lia).
  repeat split.
Qed.

(** ** The interrupt mask, raised twice *)

Ltac bits :=
  apply Z.bits_inj'; intros i Hi;
  repeat (rewrite Z.lor_spec || rewrite Z.land_spec
          || rewrite not32_bit by exact Hi).

Lemma raised_twice icr : raised_ICR (raised_ICR icr) = raised_ICR icr.
Proof.
  unfold raised_ICR. bits.
  destruct (Z.testbit icr i), (Z.testbit portCCPN_MASK i),
    (Z.testbit configMAX_SYSCALL_INTERRUPT_PRIORITY i), (i <? 32); reflexivity.
Qed.

(** X11. [uxPortSetInterruptMaskFromISR] called a second time, the mask
    being raised already, leaves the interrupt control register as the
    first call left it and returns the syscall priority, not the priority
    that was in force before the first call: only the value returned by the
    first call restores that. *)
Theorem uxPortSetInterruptMaskFromISR_twice (CL : CcpnLaws) (s : state) :
  exists s1 r2 s2,
    uxPortSetInterruptMaskFromISR s = Done (Z.land (ICR s) portCCPN_MASK) s1
    /\ uxPortSetInterruptMaskFromISR s1 = Done r2 s2
    /\ r2 = configMAX_SYSCALL_INTERRUPT_PRIORITY
    /\ ICR s2 = ICR s1
    /\ Z.land (ICR s2) portCCPN_MASK = configMAX_SYSCALL_INTERRUPT_PRIORITY.
Proof.
  destruct (ICR_mask_raised CL s) as (E1 & E2 & E3).
  destruct (ICR_mask_raised CL (mask_raised s)) as (F1 & F2 & F3).
  exists (mask_raised s),
         (Z.land (Z.clearbit (ICR (mask_raised s)) ie_bit) portCCPN_MASK),
         (mask_raised (mask_raised s)).
  split; [rewrite uxPortSetInterruptMaskFromISR_spec, (field_of_disabled CL);
          reflexivity|].
  split; [apply uxPortSetInterruptMaskFromISR_spec|].
  split; [rewrite (field_of_disabled CL); exact E3|].
  split; [|exact F3].
  rewrite F1, E2, raised_twice. symmetry. exact E1.
Qed.

(** ** Starting the scheduler *)

Lemma xPortStartScheduler_runs s s0 :
  initSTM s = Done tt s0 ->
  xPortStartScheduler s
  = match TriCore__rslcx (primed s0) with
    | Done _ sr => Done 0 (set_IE true sr)
    | Trapped t sr => Trapped t sr
    | OutOfFuel => OutOfFuel
    end.
Proof.
  intros Hinit. unfold xPortStartScheduler.
  erewrite bind_eq by exact Hinit. cbv beta.
  do 14 step. rewrite !at_index_0. unfold bind at 1.
  match goal with
  | |- context [TriCore__rslcx ?x] => rewrite (state_eta x)
  end.
  proj. flags. unfold primed. cbv zeta.
  match goal with
  | |- context [TriCore__rslcx ?x] =>
      destruct (TriCore__rslcx x) as [[] sr|t sr|]
  end; reflexivity.
Qed.

(** X12. [xPortStartScheduler], the timer set up, reaches the context
    restore with interrupts disabled, the system configuration register
    zero, the low eight bits of the program status word (call depth
    counter and its enable) cleared and its other bits kept, and the
    context register holding the saved-context handle of the current task.
    It returns 0, with interrupts enabled, exactly when the context restore
    instruction returns; a trap of that instruction ends it. *)
Theorem xPortStartScheduler_primes_the_core (s s0 : state) :
  initSTM s = Done tt s0 ->
  word (PSW s0) ->
  exists sp,
    (forall sr, TriCore__rslcx sp = Done tt sr ->
                xPortStartScheduler s = Done 0 (set_IE true sr))
    /\ (forall t sr, TriCore__rslcx sp = Trapped t sr ->
                     xPortStartScheduler s = Trapped t sr)
    /\ PCXI sp = mem s0 (pxCurrentTCB s0)
    /\ SYSCON sp = 0
    /\ Z.land (PSW sp) 0xFF = 0
    /\ (forall i, 8 <= i -> Z.testbit (PSW sp) i = Z.testbit (PSW s0) i)
    /\ IE sp = false
    /\ mem sp = mem s0 /\ FCX sp = FCX s0.
Proof.
  intros Hinit Hw. exists (primed s0).
  split.
  { intros sr Hr. rewrite (xPortStartScheduler_runs s s0 Hinit), Hr. reflexivity. }
  split.
  { intros t sr Hr. rewrite (xPortStartScheduler_runs s s0 Hinit), Hr. reflexivity. }
  unfold primed. proj. unfold portRESTORE_PSW_MASK.
  split; [reflexivity|]. split; [reflexivity|].
  split.
  { apply Z.bits_inj'. intros i Hi.
    rewrite !Z.land_spec, not32_bit, Z.bits_0 by exact Hi.
    change 0x000000FF with (Z.ones 8).
    destruct (Z.ltb_spec i 8).
    - rewrite Z.ones_spec_low by lia.
      replace (i <? 32) with true by (symmetry; apply Z.ltb_lt; lia).
      cbn. now rewrite andb_false_r.
    - rewrite Z.ones_spec_high by lia. now rewrite andb_false_r. }
  split.
  { intros i Hi. rewrite Z.land_spec, not32_bit by lia.
    change 0x000000FF with (Z.ones 8). rewrite Z.ones_spec_high by lia.
    destruct (Z.ltb_spec i 32).
    - cbn. apply andb_true_r.
    - rewrite (word_high_bits _ i Hw) by lia. reflexivity. }
  split; [apply IE_disable|]. split; reflexivity.
Qed.

(** ** Static buffers *)

(** X13. The buffers handed to the kernel for its Idle and Timer tasks. On
    two different cores [vApplicationGetIdleTaskMemory] passes out control
    blocks that are at least one [StaticTask_t] apart and stacks that are at
    least one stack apart, and [vApplicationGetTimerTaskMemory] passes out
    control blocks that are as far apart, but one and the same stack
    buffer [uxTimerTaskStack] on every core, with the size
    configTIMER_TASK_STACK_DEPTH. The three out-parameters are distinct
    locations. *)
Theorem static_task_buffers
  (i j : Z) (s : state) (ppxTCB ppxStack pulSize : Z) :
  i <> j ->
  0 < sizeof_StaticTask_t -> 0 < configMINIMAL_STACK_SIZE ->
  ppxTCB <> ppxStack -> ppxTCB <> pulSize -> ppxStack <> pulSize ->
  exists si sj ti tj,
    vApplicationGetIdleTaskMemory i ppxTCB ppxStack pulSize s = Done tt si
    /\ vApplicationGetIdleTaskMemory j ppxTCB ppxStack pulSize s = Done tt sj
    /\ vApplicationGetTimerTaskMemory i ppxTCB ppxStack pulSize s = Done tt ti
    /\ vApplicationGetTimerTaskMemory j ppxTCB ppxStack pulSize s = Done tt tj
    /\ sizeof_StaticTask_t <= Z.abs (mem si ppxTCB - mem sj ppxTCB)
    /\ configMINIMAL_STACK_SIZE * sizeof_StackType_t
       <= Z.abs (mem si ppxStack - mem sj ppxStack)
    /\ mem si pulSize = configMINIMAL_STACK_SIZE
    /\ sizeof_StaticTask_t <= Z.abs (mem ti ppxTCB - mem tj ppxTCB)
    /\ mem ti ppxStack = uxTimerTaskStack
    /\ mem tj ppxStack = uxTimerTaskStack
    /\ mem ti pulSize = configTIMER_TASK_STACK_DEPTH.
Proof.
  intros Hij Hs Hm H12 H13 H23.
  eexists _, _, _, _.
  split; [unfold vApplicationGetIdleTaskMemory; repeat step; reflexivity|].
  split; [unfold vApplicationGetIdleTaskMemory; repeat step; reflexivity|].
  split; [unfold vApplicationGetTimerTaskMemory; repeat step; reflexivity|].
  split; [unfold vApplicationGetTimerTaskMemory; repeat step; reflexivity|].
  unfold store. proj. rewrite !at_index_0.
  rewrite !(upd_other _ pulSize _ ppxTCB), !(upd_other _ ppxStack _ ppxTCB),
    !(upd_other _ pulSize _ ppxStack), !upd_same by congruence.
  unfold sizeof_StackType_t.
  repeat split; try reflexivity; nia.
Qed.

End RestProofs.

(** * The TC3xx configuration meets what the port relies on *)

Lemma field_bit w sh j :
  0 <= w -> 0 <= sh -> 0 <= j ->
  Z.testbit (Z.shiftl (Z.ones w) sh) j = (sh <=? j) && (j <? sh + w).
Proof.
  intros Hw Hsh Hj. rewrite Z.shiftl_spec, Z.testbit_ones by assumption.
  destruct (Z.leb_spec 0 (j - sh)), (Z.leb_spec sh j),
    (Z.ltb_spec (j - sh) w), (Z.ltb_spec j (sh + w)); cbn; trivial; lia.
Qed.

Lemma tc3xx_address_bit c j :
  0 <= j ->
  Z.testbit (TC3xx.CSA_TO_ADDRESS c) j
  = (Z.testbit c (j - 12) && (28 <=? j) && (j <? 32))
    || (Z.testbit c (j - 6) && (6 <=? j) && (j <? 22)).
Proof.
  intros Hj. unfold TC3xx.CSA_TO_ADDRESS.
  rewrite Z.lor_spec, !Z.shiftl_spec, !Z.land_spec by exact Hj.
  change 0x000F0000 with (Z.shiftl (Z.ones 4) 16).
  change 0x0000FFFF with (Z.shiftl (Z.ones 16) 0).
  destruct (Z.leb_spec 0 (j - 12)) as [H12|H12].
  - rewrite (field_bit 4 16) by lia. destruct (Z.leb_spec 0 (j - 6)) as [H6|H6]; [|lia].
    rewrite (field_bit 16 0) by lia.
    destruct (Z.leb_spec 16 (j - 12)), (Z.leb_spec 28 j),
      (Z.ltb_spec (j - 12) (16 + 4)), (Z.ltb_spec j 32),
      (Z.leb_spec 0 (j - 6)), (Z.leb_spec 6 j),
      (Z.ltb_spec (j - 6) (0 + 16)), (Z.ltb_spec j 22);
      try lia; rewrite <- ?andb_assoc; reflexivity.
  - rewrite (Z.testbit_neg_r _ (j - 12)) by lia. cbn [andb orb].
    destruct (Z.leb_spec 0 (j - 6)) as [H6|H6].
    + rewrite (field_bit 16 0) by lia.
      destruct (Z.leb_spec 0 (j - 6)), (Z.leb_spec 6 j),
        (Z.ltb_spec (j - 6) (0 + 16)), (Z.ltb_spec j 22);
        try lia; rewrite <- ?andb_assoc; reflexivity.
    + rewrite (Z.testbit_neg_r _ (j - 6)) by lia. reflexivity.
Qed.

Lemma tc3xx_csa_laws : @CsaLaws TC3xx.macros.
Proof.
  split; cbn [portCSA_TO_ADDRESS portADDRESS_TO_CSA TC3xx.macros].
  - intros c. unfold TC3xx.CSA_TO_ADDRESS. rewrite <- !Z.land_assoc. reflexivity.
  - intros c. unfold TC3xx.ADDRESS_TO_CSA. apply Z.bits_inj'. intros i Hi.
    rewrite Z.lor_spec, !Z.shiftr_spec, !Z.land_spec by exact Hi.
    rewrite !tc3xx_address_bit by lia.
    change 0xF0000000 with (Z.shiftl (Z.ones 4) 28).
    change 0x003FFFC0 with (Z.shiftl (Z.ones 16) 6).
    change portCSA_FCX_MASK with (Z.shiftl (Z.ones 20) 0).
    rewrite !field_bit by lia.
    replace (i + 12 - 12) with i by lia. replace (i + 6 - 6) with i by lia.
    destruct (Z.leb_spec 28 (i + 12)), (Z.ltb_spec (i + 12) 32),
      (Z.leb_spec 6 (i + 12)), (Z.ltb_spec (i + 12) 22),
      (Z.leb_spec 28 (i + 6)), (Z.ltb_spec (i + 6) 32),
      (Z.leb_spec 6 (i + 6)), (Z.ltb_spec (i + 6) 22),
      (Z.ltb_spec (i + 12) (28 + 4)), (Z.ltb_spec (i + 6) (6 + 16)),
      (Z.leb_spec 0 i), (Z.ltb_spec i (0 + 20));
      try lia; cbn [andb orb];
      rewrite ?andb_true_r, ?andb_false_r, ?orb_false_r, ?orb_false_l; reflexivity.
  - reflexivity.
  - intros c. unfold TC3xx.CSA_TO_ADDRESS.
    replace (Z.shiftl (Z.land c 0x000F0000) 12)
      with (Z.shiftl (Z.shiftl (Z.land c 0x000F0000) 6) 6)
      by (rewrite Z.shiftl_shiftl by lia; reflexivity).
    rewrite <- Z.shiftl_lor, Z.shiftl_mul_pow2 by lia.
    apply Z.mod_mul. discriminate.
Qed.

Lemma tc3xx_ccpn_laws : @CcpnLaws TC3xx.macros.
Proof. split; [cbn; unfold word; lia|reflexivity|reflexivity]. Qed.

Lemma tc3xx_hardware_laws : @HardwareLaws TC3xx.round_robin TC3xx.context_unit.
Proof.
  split.
  - intros s s'. cbn [TriCore__svlcx TC3xx.context_unit].
    intros H. injection H as <-. split; reflexivity.
  - intros s s'. cbn [TriCore__rslcx TC3xx.context_unit].
    intros H. injection H as <-. split; reflexivity.
Qed.

(** * The properties at the TC3xx configuration *)

Import TC3xx.

Ltac compute_chain := vm_compute; repeat split; try discriminate.

Lemma pool4_two_free : two_free pool4.
Proof. compute_chain. Qed.

Lemma pool4_free_pool :
  free_pool pool4 [0x00070001; 0x00070002; 0x00070003; 0x00070004].
Proof. compute_chain. Qed.

Lemma chain4_task_chain :
  task_chain chain4 0x60000000 [0x00070001; 0x00070002; 0x00070003; 0x00070004].
Proof. compute_chain. Qed.

(** C1 at the four-record pool: the build returns the identifier 0x70001 of
    the record at 0x70000040 and fills the records at 0x70000040 (lower)
    and 0x70000080 (upper). *)
Lemma pxPortInitialiseStack_builds_context_witness :
  two_free pool4
  /\ exists s',
       pxPortInitialiseStack 0x70020000 0x80000400 42 pool4 = Done 0x00070001 s'
       /\ mem s' 0x70000088 = 0x70020000
       /\ mem s' 0x70000084 = 0x000008FF
       /\ mem s' 0x70000080 = 0
       /\ mem s' 0x70000060 = 42
       /\ mem s' 0x70000044 = 0x80000400
       /\ mem s' 0x70000040 = 0x00370002
       /\ mem s' 0x7000007C = 0.
Proof.
  split; [exact pool4_two_free|].
  destruct (pxPortInitialiseStack_builds_context tc3xx_csa_laws
              0x70020000 0x80000400 42 pool4 pool4_two_free)
    as (s' & Hrun & _ & _ & _ & _ & Hup & Hlo).
  exists s'. split; [exact Hrun|].
  split; [exact (Hup 2 ltac:(vm_compute; split; congruence))|].
  split; [exact (Hup 1 ltac:(vm_compute; split; congruence))|].
  split; [exact (Hup 0 ltac:(vm_compute; split; congruence))|].
  split; [exact (Hlo 8 ltac:(vm_compute; split; congruence))|].
  split; [exact (Hlo 1 ltac:(vm_compute; split; congruence))|].
  split; [exact (Hlo 0 ltac:(vm_compute; split; congruence))|].
  exact (Hlo 15 ltac:(vm_compute; split; congruence)).
Defined.

(** C2 at a chain of 2+2 records with tagged link words: after the
    reclamation the four records are in front of the record that was
    free; the three stores of the walk are made with interrupts as they
    were (enabled), the read of the head, the store into the tail and the
    write of the head with interrupts disabled. *)
Lemma vPortReclaimCSA_returns_whole_chain_witness :
  task_chain chain4 0x60000000 [0x00070001; 0x00070002; 0x00070003; 0x00070004]
  /\ free_pool chain4 [0x00070005]
  /\ exists s',
       vPortReclaimCSA 4 0x60000000 chain4 = Done tt s'
       /\ FCX s' = 0x00070001
       /\ mem s' 0x70000040 = 0x00070002
       /\ mem s' 0x70000100 = 0x00070005
       /\ trace s' = [ EvMtcr TRICORE_CPU_FCX 0x00070001 false;
                       EvStore 0x70000100 0x00070005 false;
                       EvMfcr TRICORE_CPU_FCX 0x00070005 false;
                       EvStore 0x700000C0 0x00070004 true;
                       EvStore 0x70000080 0x00070003 true;
                       EvStore 0x70000040 0x00070002 true ]
       /\ free_pool s' [0x00070001; 0x00070002; 0x00070003; 0x00070004; 0x00070005].
Proof.
  split; [exact chain4_task_chain|].
  assert (HP : free_pool chain4 [0x00070005]) by compute_chain.
  split; [exact HP|].
  destruct (vPortReclaimCSA_returns_whole_chain tc3xx_csa_laws 2 4 0x60000000
              [0x00070001; 0x00070002; 0x00070003; 0x00070004] chain4
              chain4_task_chain eq_refl (le_n 4))
    as (s' & Hrun & Hstrip & Htail & Hhead & Htrace & _ & _ & Hpool).
  exists s'. split; [exact Hrun|]. split; [exact Hhead|].
  split; [exact (Hstrip 0x00070001 (or_introl eq_refl))|].
  split; [exact Htail|].
  split; [rewrite Htrace; vm_compute; reflexivity|].
  apply (Hpool [0x00070005] HP).
  intros x Hx [E|[]]. subst x. vm_compute in Hx. intuition discriminate.
Defined.

(** C6 at the four-record pool, the control block at 0x60000000. *)
Lemma build_then_reclaim_restores_pool_witness :
  free_pool pool4 [0x00070001; 0x00070002; 0x00070003; 0x00070004]
  /\ exists s1 s2,
       create_task 0x60000000 0x70020000 0x80000400 42 pool4 = Done tt s1
       /\ free_pool s1 [0x00070003; 0x00070004]
       /\ vPortReclaimCSA 2 0x60000000 s1 = Done tt s2
       /\ free_pool s2 [0x00070001; 0x00070002; 0x00070003; 0x00070004].
Proof.
  split; [exact pool4_free_pool|].
  destruct (build_then_reclaim_restores_pool tc3xx_csa_laws
              0x60000000 0x70020000 0x80000400 42 2 pool4 _ _ _
              pool4_free_pool eq_refl (le_n 2))
    as (s1 & s2 & H1 & HP1 & _ & H2 & HP2).
  exists s1, s2.
  split; [exact H1|]. split; [exact HP1|]. split; [exact H2|exact HP2].
Defined.



(** C3, as worded, fails at the interrupted task: the control block
    receives the link word 0x00270002 of the record that the context
    register identifies, not the register's value 0x00370003, and the
    register still holds 0x00370003 after the switch, not the handle
    0x00070005 of the task selected. *)
Lemma switch_through_register_counterexample :
  ~ switch_through_register interrupted.
Proof.
  intros (s' & Hrun & Hsave & Hrestore).
  rewrite prvYield_spec in Hrun. injection Hrun as <-.
  vm_compute in Hrestore. discriminate Hrestore.
Qed.

(** C4 at the interrupted task. *)
Lemma current_task_is_last_selection_witness :
  switch_consistent interrupted
  /\ switch_run switches interrupted = Done tt after_switches
  /\ switch_consistent after_switches
  /\ last_selected (trace after_switches) = Some 0x60000100
  /\ pxCurrentTCB after_switches = 0x60000100.
Proof.
  assert (H0 : switch_consistent interrupted) by (intros t Ht; discriminate Ht).
  assert (Hrun : switch_run switches interrupted = Done tt after_switches)
    by (vm_compute; reflexivity).
  split; [exact H0|]. split; [exact Hrun|].
  destruct (current_task_is_last_selection tc3xx_hardware_laws
              switches interrupted after_switches H0 Hrun) as (Hc & _).
  split; [exact Hc|]. split; [vm_compute; reflexivity|].
  apply Hc. vm_compute. reflexivity.
Defined.

(** C8 at the interrupted task, whose priority field holds 40, the
    priority of the timer interrupt: the comparator goes from 1000 to
    101000, the tick is accounted once with the field raised to 64, the
    register is 0x8A28 again afterwards, and the switch that is due selects
    the task at 0x60000100. *)
Lemma isrSTM_advances_comparator_and_ticks_once_witness :
  word (ICR interrupted)
  /\ exists s',
       isrSTM interrupted = Done tt s'
       /\ comparator s' = 101000
       /\ ICR s' = 0x00008A28
       /\ tick_calls (trace s') = [(0x00008A40, 1)]
       /\ switch_calls (trace s') = [0x60000100].
Proof.
  assert (Hw : word (ICR interrupted)) by (vm_compute; split; congruence).
  split; [exact Hw|].
  destruct (isrSTM_advances_comparator_and_ticks_once tc3xx_ccpn_laws interrupted Hw)
    as (s1 & s' & Hrun & Hcmp & _ & _ & _ & Hicr & _ & Hticks & Hdue & _).
  exists s'. split; [exact Hrun|]. split; [exact Hcmp|]. split; [exact Hicr|].
  split; [exact Hticks|].
  destruct (Hdue ltac:(vm_compute; congruence)) as (_ & Hsw).
  exact Hsw.
Defined.

(** C10 at the interrupted task: the field goes from 40 to 64, the bits
    above it stay, the interrupt-enable bit 15 is set. *)
Lemma uxPortSetInterruptMaskFromISR_sets_the_field_and_enables_witness :
  word (ICR interrupted)
  /\ exists s',
       uxPortSetInterruptMaskFromISR interrupted = Done 0x28 s'
       /\ Z.land (ICR s') 0xFF = 64
       /\ Z.testbit (ICR s') 15 = true
       /\ Z.testbit (ICR s') 9 = true /\ Z.testbit (ICR s') 11 = true
       /\ Z.testbit (ICR s') 10 = false.
Proof.
  assert (Hw : word (ICR interrupted)) by (vm_compute; split; congruence).
  split; [exact Hw|].
  destruct (uxPortSetInterruptMaskFromISR_sets_the_field_and_enables
              tc3xx_ccpn_laws interrupted Hw)
    as (s' & Hrun & Hfield & Hie & Hbits & _).
  exists s'. split; [exact Hrun|]. split; [exact Hfield|].
  split; [exact Hie|].
  split; [rewrite (Hbits 9); [reflexivity|lia|reflexivity|discriminate]|].
  split; [rewrite (Hbits 11); [reflexivity|lia|reflexivity|discriminate]|].
  rewrite (Hbits 10); [reflexivity|lia|reflexivity|discriminate].
Defined.

(** C10, as worded, fails inside an interrupt handler that runs with
    interrupts disabled: the register goes from 0x0A28 to 0x8A40, so bit 15,
    which lies outside the priority field, does not keep its value. *)
Lemma priority_field_only_counterexample :
  ~ priority_field_only in_handler.
Proof.
  intros (s' & Hrun & _ & Hbits).
  rewrite uxPortSetInterruptMaskFromISR_spec in Hrun. injection Hrun as <-.
  specialize (Hbits 15 ltac:(lia) eq_refl).
  vm_compute in Hbits. discriminate Hbits.
Qed.

(** * The further properties at the TC3xx configuration *)

Import TC3xxRest.

(** X1 at the four-record pool. *)
Lemma handle_leads_to_stack_pointer_witness :
  two_free pool4
  /\ exists s',
       pxPortInitialiseStack 0x70020000 0x80000400 42 pool4 = Done 0x00070001 s'
       /\ mem s' 0x70000088 = 0x70020000
       /\ mem s' 0x70000044 = 0x80000400
       /\ walk 3 (mem s') 0x00070001 = Some [0x00070001; 0x00070002].
Proof.
  split; [exact pool4_two_free|].
  destruct (handle_leads_to_stack_pointer tc3xx_csa_laws
              0x70020000 0x80000400 42 pool4 pool4_two_free)
    as (h & s' & Hrun & Hw).
  assert (Eh : h = 0x00070001).
  { rewrite (pxPortInitialiseStack_success _ _ _ pool4) in Hrun
      by (vm_compute; discriminate).
    injection Hrun as <- _. reflexivity. }
  subst h. exists s'. split; [exact Hrun|].
  cbv zeta in Hw. destruct Hw as (Hsp & _ & Hcode & _ & Hwalk).
  assert (Eup : portCSA_TO_ADDRESS (mem s' (at_index (portCSA_TO_ADDRESS 0x00070001) 0))
                = 0x70000080).
  { rewrite (pxPortInitialiseStack_success _ _ _ pool4) in Hrun
      by (vm_compute; discriminate).
    injection Hrun as <-. vm_compute. reflexivity. }
  rewrite Eup in Hsp, Hwalk.
  split; [exact Hsp|]. split; [exact Hcode|exact Hwalk].
Defined.


(** X4 at a chain of two records that links back to the first. *)
Lemma vPortReclaimCSA_loops_on_a_cycle_witness :
  cyclic (mem looped) 0x00070001 [0x00070001; 0x00070002]
  /\ vPortReclaimCSA 1000 0x60000000 looped = OutOfFuel.
Proof.
  assert (Hc : cyclic (mem looped) (Z.land (mem looped 0x60000000) portCSA_FCX_MASK)
                      [0x00070001; 0x00070002])
    by (vm_compute; repeat split; discriminate).
  split; [exact Hc|].
  exact (proj1 (vPortReclaimCSA_loops_on_a_cycle 0x60000000 _ looped Hc) 1000%nat).
Defined.

(** X5 at the chain of four records and the pool of one. *)
Lemma second_reclaim_ties_the_free_list_witness :
  task_chain chain4 0x60000000 arena4
  /\ free_pool chain4 [0x00070005]
  /\ exists s1 s2,
       vPortReclaimCSA 5 0x60000000 chain4 = Done tt s1
       /\ vPortReclaimCSA 5 0x60000000 s1 = Done tt s2
       /\ walk 100 (mem s2) (Z.land (FCX s2) portCSA_FCX_MASK) = None.
Proof.
  split; [exact chain4_task_chain|].
  assert (HP : free_pool chain4 [0x00070005]) by compute_chain.
  split; [exact HP|].
  destruct (second_reclaim_ties_the_free_list tc3xx_csa_laws 0x60000000
              arena4 [0x00070005] chain4 5 chain4_task_chain
              ltac:(discriminate) HP
              ltac:(intros x Hx [E|[]]; subst x; vm_compute in Hx; intuition discriminate)
              eq_refl (le_n 5))
    as (s1 & s2 & H1 & _ & H2 & _ & Hw & _).
  exists s1, s2. split; [exact H1|]. split; [exact H2|exact (Hw 100%nat)].
Defined.


(** X7 where the interrupted task is the only one. *)
Lemma yield_to_the_running_task_witness :
  snd (task_selection (kernel alone)) = pxCurrentTCB alone
  /\ exists s',
       prvYield alone = Done tt s'
       /\ mem s' 0x700000C0 = 0x00270002
       /\ mem s' 0x60000000 = 0x00270002.
Proof.
  split; [reflexivity|].
  destruct (yield_to_the_running_task alone eq_refl)
    as (s' & Hrun & _ & _ & Hlink & Htcb & _).
  exists s'. split; [exact Hrun|]. split; [exact Hlink|exact Htcb].
Defined.

(** X8 at the interrupted task: to the task at 0x60000100 and back. *)
Lemma yield_away_and_back_witness :
  exists s1 s2,
    prvYield interrupted = Done tt s1
    /\ mem s1 0x700000C0 = 0x00070005
    /\ prvYield s1 = Done tt s2
    /\ pxCurrentTCB s2 = 0x60000000
    /\ mem s2 0x700000C0 = 0x00270002
    /\ mem s2 0x60000100 = 0x00070005.
Proof.
  destruct (yield_away_and_back interrupted
              ([0x60000000; 0x60000100], 1) ([0x60000100; 0x60000000], 1)
              0x60000100 eq_refl eq_refl
              ltac:(vm_compute; discriminate) ltac:(vm_compute; discriminate)
              ltac:(vm_compute; discriminate))
    as (s1 & s2 & H1 & _ & Hl1 & H2 & Hc2 & Hl2 & _ & Hrest).
  exists s1, s2. split; [exact H1|]. split; [exact Hl1|]. split; [exact H2|].
  split; [exact Hc2|]. split; [exact Hl2|].
  exact (Hrest 0x60000100 ltac:(vm_compute; discriminate)).
Defined.

(** X9 at the interrupted task, three records free. *)
Lemma switch_leaves_the_free_pool_witness :
  free_pool interrupted [0x00070006; 0x00070007; 0x00070008]
  /\ (exists s', prvYield interrupted = Done tt s'
                 /\ free_pool s' [0x00070006; 0x00070007; 0x00070008])
  /\ (exists s', vPortSystemTickHandler interrupted = Done tt s'
                 /\ free_pool s' [0x00070006; 0x00070007; 0x00070008]).
Proof.
  assert (HP : free_pool interrupted [0x00070006; 0x00070007; 0x00070008])
    by compute_chain.
  split; [exact HP|].
  destruct (switch_leaves_the_free_pool interrupted _ HP
              ltac:(intros x Hx; vm_compute in Hx;
                    destruct Hx as [<-|[<-|[<-|[]]]]; vm_compute; split; discriminate))
    as ((s' & Hrun & _ & HP') & (t' & Hrun' & _ & HP'')).
  split; [exists s'; split; assumption|exists t'; split; assumption].
Defined.

(** X10 where the policy selects the task that is created. *)
Lemma first_switch_into_a_new_task_witness :
  free_pool before_first_run arena4
  /\ exists s1 s2,
       create_task 0x60000000 0x70020000 0x80000400 42 before_first_run = Done tt s1
       /\ prvYield s1 = Done tt s2
       /\ pxCurrentTCB s2 = 0x60000000
       /\ mem s2 0x70000240 = 0x00070001
       /\ mem s2 0x70000044 = 0x80000400
       /\ mem s2 0x70000060 = 42.
Proof.
  assert (HP : free_pool before_first_run arena4) by compute_chain.
  split; [exact HP|].
  destruct (first_switch_into_a_new_task tc3xx_csa_laws
              0x60000000 0x70020000 0x80000400 42 before_first_run
              0x00070001 0x00070002 [0x00070003; 0x00070004] HP
              eq_refl eq_refl
              ltac:(vm_compute; discriminate) ltac:(vm_compute; discriminate)
              eq_refl eq_refl)
    as (s1 & s2 & H1 & H2 & Hc & _ & Hh & Hcode & Hpar & _).
  exists s1, s2. split; [exact H1|]. split; [exact H2|]. split; [exact Hc|].
  split; [exact Hh|]. split; [exact Hcode|exact Hpar].
Defined.

(** X11 at the interrupted task: 40, then 64. *)
Lemma uxPortSetInterruptMaskFromISR_twice_witness :
  exists s1 s2,
    uxPortSetInterruptMaskFromISR interrupted = Done 0x28 s1
    /\ uxPortSetInterruptMaskFromISR s1 = Done 64 s2
    /\ ICR s2 = ICR s1.
Proof.
  destruct (uxPortSetInterruptMaskFromISR_twice tc3xx_ccpn_laws interrupted)
    as (s1 & r2 & s2 & H1 & H2 & -> & Hicr & _).
  exists s1, s2. split; [exact H1|]. split; [exact H2|exact Hicr].
Defined.

(** X12 at the interrupted task, whose handle is 0x00070001. *)
Lemma xPortStartScheduler_primes_the_core_witness :
  initSTM interrupted = Done tt (set_comparator 100000 interrupted)
  /\ word (PSW interrupted)
  /\ exists sp,
       (forall sr, TriCore__rslcx sp = Done tt sr ->
                   xPortStartScheduler interrupted = Done 0 (set_IE true sr))
       /\ PCXI sp = 0x00070001
       /\ Z.land (PSW sp) 0xFF = 0
       /\ Z.testbit (PSW sp) 11 = true.
Proof.
  assert (Hw : word (PSW interrupted)) by (vm_compute; split; congruence).
  assert (Hi : initSTM interrupted = Done tt (set_comparator 100000 interrupted))
    by reflexivity.
  split; [exact Hi|]. split; [exact Hw|].
  destruct (xPortStartScheduler_primes_the_core interrupted
              (set_comparator 100000 interrupted) Hi Hw)
    as (sp & Hret & _ & Hpcxi & _ & Hlow & Hhigh & _).
  exists sp. split; [exact Hret|]. split; [exact Hpcxi|]. split; [exact Hlow|].
  rewrite (Hhigh 11) by lia. reflexivity.
Defined.

(** X13 on cores 0 and 1. *)
Lemma static_task_buffers_witness :
  exists si sj ti tj,
    vApplicationGetIdleTaskMemory 0 0x60000200 0x60000204 0x60000208 pool4 = Done tt si
    /\ vApplicationGetIdleTaskMemory 1 0x60000200 0x60000204 0x60000208 pool4 = Done tt sj
    /\ vApplicationGetTimerTaskMemory 0 0x60000200 0x60000204 0x60000208 pool4 = Done tt ti
    /\ vApplicationGetTimerTaskMemory 1 0x60000200 0x60000204 0x60000208 pool4 = Done tt tj
    /\ mem ti 0x60000204 = mem tj 0x60000204
    /\ 96 <= Z.abs (mem si 0x60000200 - mem sj 0x60000200).
Proof.
  destruct (static_task_buffers 0 1 pool4 0x60000200 0x60000204 0x60000208
              ltac:(discriminate) eq_refl eq_refl
              ltac:(discriminate) ltac:(discriminate) ltac:(discriminate))
    as (si & sj & ti & tj & H1 & H2 & H3 & H4 & Hd & _ & _ & _ & Hti & Htj & _).
  exists si, sj, ti, tj.
  split; [exact H1|]. split; [exact H2|]. split; [exact H3|]. split; [exact H4|].
  split; [now rewrite Hti, Htj|exact Hd].
Defined.
